(** * FoodVision AI: the analyze pipeline of [server.js] and [app.js]

    A shallow embedding of the provider key validators, the reply
    normalizer, the [/api/analyze] route, the client orchestrator and the
    mock generator, followed by the properties of the specification that
    concern them. *)

From Stdlib Require Import List NArith ZArith QArith Qround Bool Ascii String Lia Lqa.
Import ListNotations.

Set Implicit Arguments.
Set Warnings "-register-all".

Local Open Scope string_scope.
Local Open Scope list_scope.

(** ** JavaScript strings

    A JavaScript string is a sequence of UTF-16 code units; [length],
    [startsWith], [===] and the regular expression of the normalizer all
    work on code units.  Every literal of the modelled code is ASCII. *)

Definition code_unit := N.
Definition jsstring := list code_unit.

Definition ch (a : ascii) : code_unit := N_of_ascii a.

Definition js (s : string) : jsstring := map ch (list_ascii_of_string s).

(** The double quote, written by its code so that literals stay readable. *)
Definition c_quote : code_unit := 34%N.

(** [jsq] writes a literal in which the apostrophe stands for the double
    quote: [jsq "{'a':1}"] is the text [{"a":1}]. *)
Definition jsq (s : string) : jsstring :=
  map (fun c => if N.eqb c (ch "'") then c_quote else c) (js s).

Arguments ch : simpl never.
Arguments js : simpl never.
Arguments jsq : simpl never.

Fixpoint jsstring_eqb (a b : jsstring) : bool :=
  match a, b with
  | [], [] => true
  | x :: a', y :: b' => N.eqb x y && jsstring_eqb a' b'
  | _, _ => false
  end.

(** [String.prototype.startsWith] *)
Fixpoint startsWith (s prefix : jsstring) {struct prefix} : bool :=
  match prefix, s with
  | [], _ => true
  | p :: prefix', c :: s' => N.eqb p c && startsWith s' prefix'
  | _ :: _, [] => false
  end.

(** ** JSON values, as [JSON.parse] and [response.json()] produce them

    A value of this type describes a JavaScript value.  A number is kept
    as the decimal it was written as: [JNum m e] describes the double that
    [m * 10^e] rounds to, and what depends on the rounding ([truthy]: a
    decimal that underflows is [0]) computes it.  An object keeps the
    members in the order of the text, repetitions included: [JObj members]
    describes the object whose member [k] is the last pair of [members]
    with the key [k] ([lookup]). *)

Inductive json : Type :=
| JNull
| JBool (b : bool)
| JNum (m : Z) (e : Z)
| JStr (s : jsstring)
| JArr (items : list json)
| JObj (members : list (jsstring * json)).

(** A JavaScript value read from such data: [None] is [undefined]. *)
Definition jsval := option json.

Inductive js_error : Type :=
| TypeError
| SyntaxError
| NetworkError (message : jsstring)
| HttpFailure (api : jsstring) (status : Z) (errorText : jsstring).

Inductive result (A : Type) : Type :=
| Return (a : A)
| Throw (e : js_error).

Arguments Return {A} a.
Arguments Throw {A} e.

Definition bind {A B} (r : result A) (k : A -> result B) : result B :=
  match r with
  | Return a => k a
  | Throw e => Throw e
  end.

Notation "x <- r ;; k" := (bind r (fun x => k))
  (at level 61, r at next level, right associativity).

(** [try { body } catch (error) { handler }] *)
Definition try_catch {A} (body : result A) (handler : js_error -> result A) : result A :=
  match body with
  | Return a => Return a
  | Throw e => handler e
  end.

(** The own property [k] of an object built by [JSON.parse]: when the text
    repeats a key, the last member wins. *)
Fixpoint lookup (k : jsstring) (members : list (jsstring * json)) : jsval :=
  match members with
  | [] => None
  | (k', v) :: rest =>
      match lookup k rest with
      | Some later => Some later
      | None => if jsstring_eqb k k' then Some v else None
      end
  end.

(** Property access [v.k] (and [v[0]], with [k] the key [0]).  Reading a
    property of [undefined] or [null] throws a TypeError; a primitive has
    none of the properties the code reads, apart from the first code unit
    of a string under the key [0]. *)
Definition member (v : jsval) (k : jsstring) : result jsval :=
  match v with
  | None | Some JNull => Throw TypeError
  | Some (JObj members) => Return (lookup k members)
  | Some (JArr items) =>
      Return (if jsstring_eqb k (js "0") then hd_error items else None)
  | Some (JStr s) =>
      Return (if jsstring_eqb k (js "0")
              then match s with [] => None | c :: _ => Some (JStr [c]) end
              else None)
  | Some (JBool _) | Some (JNum _ _) => Return None
  end.

(** ToBoolean on the values above.  A number is falsy when it is zero as
    a double: the decimal [m * 10^e] is read as the nearest double, and
    that is zero exactly when its magnitude is at most [2^-1075], half of
    the smallest double. *)
Definition rounds_to_zero (m e : Z) : bool :=
  (m =? 0)%Z || ((e <? 0)%Z && (Z.abs m * 2 ^ 1075 <=? 10 ^ (- e))%Z).

Definition truthy (v : jsval) : bool :=
  match v with
  | None | Some JNull => false
  | Some (JBool b) => b
  | Some (JNum m e) => negb (rounds_to_zero m e)
  | Some (JStr s) => match s with [] => false | _ :: _ => true end
  | Some (JArr _) | Some (JObj _) => true
  end.

(** [v === 'literal'] *)
Definition is_string (v : jsval) (literal : jsstring) : bool :=
  match v with
  | Some (JStr s) => jsstring_eqb s literal
  | _ => false
  end.

(** [v === true] and [v === false] *)
Definition is_bool (v : jsval) (b : bool) : bool :=
  match v with
  | Some (JBool b') => Bool.eqb b' b
  | _ => false
  end.

(** ** Doubles

    [to_double q] is the double nearest to the rational [q], ties going to
    the even significand: the value of a decimal literal and of a product
    of two doubles.  Results beyond the largest double are not modelled;
    the code modelled stays below 4. *)

(** [2^k], for any integer [k]. *)
Definition pow2 (k : Z) : Q :=
  if (0 <=? k)%Z then inject_Z (2 ^ k) else 1 # Z.to_pos (2 ^ (- k)).

(** The integer nearest to [r], the even one of two that are as near. *)
Definition round_half_even (r : Q) : Z :=
  let f := Qfloor r in
  match Qcompare (r - inject_Z f) (1 # 2) with
  | Lt => f
  | Gt => (f + 1)%Z
  | Eq => if Z.even f then f else (f + 1)%Z
  end.

(** For [q > 0], the [e] with [2^e <= q < 2^(e+1)]. *)
Definition binade (q : Q) : Z :=
  let e0 := (Z.log2 (Qnum q) - Z.log2 (Zpos (Qden q)))%Z in
  if Qle_bool (pow2 e0) q then e0 else (e0 - 1)%Z.

(** The distance between the doubles next to [q > 0]: 52 bits below its
    binade, and [2^-1074] in the subnormal range. *)
Definition ulp (q : Q) : Q := pow2 (Z.max (binade q) (-1022) - 52).

Definition to_double (q : Q) : Q :=
  match Qcompare q 0 with
  | Eq => 0
  | Gt => inject_Z (round_half_even (q / ulp q)) * ulp q
  | Lt => - (inject_Z (round_half_even (- q / ulp (- q))) * ulp (- q))
  end.

(** ** String coercion

    A template literal [`${v}`] converts [v] to a string.  For an object
    that calls its [toString], and a member [toString] read from JSON is
    never callable: the conversion then falls to [valueOf], which returns
    the object, and throws a TypeError.  An array joins the conversions of
    its elements.  Every other value converts. *)
Fixpoint coercion_throws (j : json) : bool :=
  match j with
  | JObj members =>
      match lookup (js "toString") members with
      | Some _ => true
      | None => false
      end
  | JArr items => existsb coercion_throws items
  | _ => false
  end.

(** The evaluation of a template literal that holds [v]. *)
Definition interpolate (v : jsval) : result unit :=
  match v with
  | Some j => if coercion_throws j then Throw TypeError else Return tt
  | None => Return tt
  end.

(** ** [JSON.parse]

    A recursive-descent reader of the JSON grammar of ECMA-404, which is
    the grammar [JSON.parse] accepts.  The three mutually recursive
    readers descend on a fuel that [parse] sets from the length of the
    text; [parse_never_out_of_fuel] shows that it is always enough. *)

Module JSON.

Inductive parsed (A : Type) : Type :=
| Parsed (a : A) (rest : jsstring)
| Malformed
| OutOfFuel.

Arguments Parsed {A} a rest.
Arguments Malformed {A}.
Arguments OutOfFuel {A}.

Definition is_ws (c : code_unit) : bool :=
  (N.eqb c 32 || N.eqb c 9 || N.eqb c 10 || N.eqb c 13)%N.

Fixpoint skip_ws (s : jsstring) : jsstring :=
  match s with
  | c :: rest => if is_ws c then skip_ws rest else s
  | [] => []
  end.

Definition digit (c : code_unit) : option Z :=
  if (N.leb 48 c && N.leb c 57)%N then Some (Z.of_N c - 48)%Z else None.

Definition hex_digit (c : code_unit) : option N :=
  if (N.leb 48 c && N.leb c 57)%N then Some (c - 48)%N
  else if (N.leb 65 c && N.leb c 70)%N then Some (c - 55)%N
  else if (N.leb 97 c && N.leb c 102)%N then Some (c - 87)%N
  else None.

Definition hex4 (a b c d : code_unit) : option code_unit :=
  match hex_digit a, hex_digit b, hex_digit c, hex_digit d with
  | Some x, Some y, Some z, Some w => Some (((x * 16 + y) * 16 + z) * 16 + w)%N
  | _, _, _, _ => None
  end.

(** The code unit a two-character escape stands for. *)
Definition simple_escape (c : code_unit) : option code_unit :=
  if N.eqb c c_quote then Some c_quote
  else if N.eqb c (ch "\") then Some (ch "\")
  else if N.eqb c (ch "/") then Some (ch "/")
  else if N.eqb c (ch "b") then Some 8%N
  else if N.eqb c (ch "f") then Some 12%N
  else if N.eqb c (ch "n") then Some 10%N
  else if N.eqb c (ch "r") then Some 13%N
  else if N.eqb c (ch "t") then Some 9%N
  else None.

(** The characters of a string, after its opening quote. *)
Fixpoint parse_chars (s : jsstring) (acc : jsstring) : parsed jsstring :=
  match s with
  | [] => Malformed
  | c :: r =>
      if N.eqb c c_quote then Parsed (rev acc) r
      else if N.eqb c (ch "\") then
        match r with
        | [] => Malformed
        | e :: r1 =>
            if N.eqb e (ch "u") then
              match r1 with
              | h1 :: h2 :: h3 :: h4 :: r2 =>
                  match hex4 h1 h2 h3 h4 with
                  | Some u => parse_chars r2 (u :: acc)
                  | None => Malformed
                  end
              | _ => Malformed
              end
            else
              match simple_escape e with
              | Some u => parse_chars r1 (u :: acc)
              | None => Malformed
              end
        end
      else if N.ltb c 32 then Malformed
      else parse_chars r (c :: acc)
  end.

(** The longest run of decimal digits at the head of [s]. *)
Fixpoint span_digits (s : jsstring) : list Z * jsstring :=
  match s with
  | c :: r =>
      match digit c with
      | Some d => let (ds, rest) := span_digits r in (d :: ds, rest)
      | None => ([], s)
      end
  | [] => ([], [])
  end.

Definition digits_value (ds : list Z) : Z :=
  fold_left (fun acc d => acc * 10 + d)%Z ds 0%Z.

Definition parse_sign (s : jsstring) : bool * jsstring :=
  match s with
  | c :: r => if N.eqb c (ch "-") then (true, r) else (false, s)
  | [] => (false, s)
  end.

(** One digit or more. *)
Definition parse_digits (s : jsstring) : parsed (list Z) :=
  match span_digits s with
  | ([], _) => Malformed
  | (ds, rest) => Parsed ds rest
  end.

Definition parse_fraction (s : jsstring) : parsed (list Z) :=
  match s with
  | c :: r => if N.eqb c (ch ".") then parse_digits r else Parsed [] s
  | [] => Parsed [] s
  end.

Definition parse_exponent_sign (s : jsstring) : bool * jsstring :=
  match s with
  | c :: r =>
      if N.eqb c (ch "-") then (true, r)
      else if N.eqb c (ch "+") then (false, r)
      else (false, s)
  | [] => (false, s)
  end.

Definition parse_exponent (s : jsstring) : parsed Z :=
  match s with
  | c :: r =>
      if N.eqb c (ch "e") || N.eqb c (ch "E") then
        let (neg, r1) := parse_exponent_sign r in
        match parse_digits r1 with
        | Parsed es rest =>
            Parsed (if neg then - digits_value es else digits_value es)%Z rest
        | Malformed => Malformed
        | OutOfFuel => OutOfFuel
        end
      else Parsed 0%Z s
  | [] => Parsed 0%Z s
  end.

(** A number: an optional minus, an integer part without a leading zero,
    an optional fraction and an optional exponent. *)
Definition parse_number (s : jsstring) : parsed json :=
  let (neg, s1) := parse_sign s in
  match span_digits s1 with
  | ([], _) => Malformed
  | (d :: more, s2) =>
      if Z.eqb d 0 && negb (match more with [] => true | _ => false end)
      then Malformed
      else
        match parse_fraction s2 with
        | Parsed fs s3 =>
            match parse_exponent s3 with
            | Parsed ex s4 =>
                let m := digits_value ((d :: more) ++ fs) in
                Parsed (JNum (if neg then - m else m)%Z
                             (ex - Z.of_nat (List.length fs))%Z) s4
            | Malformed => Malformed
            | OutOfFuel => OutOfFuel
            end
        | Malformed => Malformed
        | OutOfFuel => OutOfFuel
        end
  end.

(** [strip s word]: [s] without its prefix [word], if it has it. *)
Fixpoint strip (s word : jsstring) {struct word} : option jsstring :=
  match word, s with
  | [], _ => Some s
  | w :: word', c :: s' => if N.eqb w c then strip s' word' else None
  | _ :: _, [] => None
  end.

Definition parse_literal (s : jsstring) : parsed json :=
  match strip s (js "true") with
  | Some r => Parsed (JBool true) r
  | None =>
      match strip s (js "false") with
      | Some r => Parsed (JBool false) r
      | None =>
          match strip s (js "null") with
          | Some r => Parsed JNull r
          | None => parse_number s
          end
      end
  end.

Fixpoint parse_value (fuel : nat) (s : jsstring) : parsed json :=
  match fuel with
  | O => OutOfFuel
  | S f =>
      match skip_ws s with
      | [] => Malformed
      | c :: r =>
          if N.eqb c (ch "{") then
            match skip_ws r with
            | c' :: r' =>
                if N.eqb c' (ch "}") then Parsed (JObj []) r'
                else parse_members f r []
            | [] => Malformed
            end
          else if N.eqb c (ch "[") then
            match skip_ws r with
            | c' :: r' =>
                if N.eqb c' (ch "]") then Parsed (JArr []) r'
                else parse_elements f r []
            | [] => Malformed
            end
          else if N.eqb c c_quote then
            match parse_chars r [] with
            | Parsed str rest => Parsed (JStr str) rest
            | Malformed => Malformed
            | OutOfFuel => OutOfFuel
            end
          else parse_literal (c :: r)
      end
  end

with parse_elements (fuel : nat) (s : jsstring) (acc : list json) : parsed json :=
  match fuel with
  | O => OutOfFuel
  | S f =>
      match parse_value f s with
      | Parsed v r =>
          match skip_ws r with
          | c :: r' =>
              if N.eqb c (ch ",") then parse_elements f r' (v :: acc)
              else if N.eqb c (ch "]") then Parsed (JArr (rev (v :: acc))) r'
              else Malformed
          | [] => Malformed
          end
      | Malformed => Malformed
      | OutOfFuel => OutOfFuel
      end
  end

with parse_members (fuel : nat) (s : jsstring) (acc : list (jsstring * json)) : parsed json :=
  match fuel with
  | O => OutOfFuel
  | S f =>
      match skip_ws s with
      | q :: r =>
          if N.eqb q c_quote then
            match parse_chars r [] with
            | Parsed key r1 =>
                match skip_ws r1 with
                | colon :: r2 =>
                    if N.eqb colon (ch ":") then
                      match parse_value f r2 with
                      | Parsed v r3 =>
                          match skip_ws r3 with
                          | c :: r4 =>
                              if N.eqb c (ch ",")
                              then parse_members f r4 ((key, v) :: acc)
                              else if N.eqb c (ch "}")
                              then Parsed (JObj (rev ((key, v) :: acc))) r4
                              else Malformed
                          | [] => Malformed
                          end
                      | Malformed => Malformed
                      | OutOfFuel => OutOfFuel
                      end
                    else Malformed
                | [] => Malformed
                end
            | Malformed => Malformed
            | OutOfFuel => OutOfFuel
            end
          else Malformed
      | [] => Malformed
      end
  end.

Definition fuel_for (text : jsstring) : nat := 2 * List.length text + 2.

(** [JSON.parse(text)]: one value, surrounded by optional white space;
    anything else is a SyntaxError. *)
Definition parse (text : jsstring) : result json :=
  match parse_value (fuel_for text) text with
  | Parsed v rest =>
      match skip_ws rest with
      | [] => Return v
      | _ :: _ => Throw SyntaxError
      end
  | Malformed => Throw SyntaxError
  | OutOfFuel => Throw SyntaxError
  end.

End JSON.

(** ** The regular expression of the normalizer

    [text.match(/\{[\s\S]*\}/)]: the class [[\s\S]] accepts every code
    unit and the star is greedy, so the match starts at the first opening
    brace and ends at the last closing brace after it. *)

Fixpoint from_first_open (s : jsstring) : option jsstring :=
  match s with
  | [] => None
  | c :: r => if N.eqb c (ch "{") then Some s else from_first_open r
  end.

(** The longest prefix of [s] that ends in a closing brace. *)
Fixpoint upto_last_close (s : jsstring) : option jsstring :=
  match s with
  | [] => None
  | c :: r =>
      match upto_last_close r with
      | Some t => Some (c :: t)
      | None => if N.eqb c (ch "}") then Some [c] else None
      end
  end.

(** [analysisMatch[0]], or [None] when [match] returns [null]. *)
Definition match_braces (text : jsstring) : option jsstring :=
  match from_first_open text with
  | Some (open :: r) =>
      match upto_last_close r with
      | Some body => Some (open :: body)
      | None => None
      end
  | _ => None
  end.

(** ** The outcome of a [fetch] *)

Inductive fetch_outcome : Type :=
| FetchRejected (message : jsstring)
| Response (status : Z) (text : jsstring).

(** [response.ok] *)
Definition ok (status : Z) : bool := (200 <=? status)%Z && (status <=? 299)%Z.

(** [a && b] on values that are already computed. *)
Definition and_then (a b : jsval) : jsval := if truthy a then b else a.

Definition placeholder : jsstring :=
  js "pplx-xxxxxxxxxxxxxxxxxxxxxxxxxxxxxxxxxxxxxxxx".

(** An object literal with the two members [foodDetected: false] and
    [message]. *)
Definition no_food (message : jsstring) : json :=
  JObj [(js "foodDetected", JBool false); (js "message", JStr message)].

(** An object literal with the two members [error] and [message]. *)
Definition error_body (error message : jsstring) : json :=
  JObj [(js "error", JStr error); (js "message", JStr message)].

(** [String.prototype.includes] *)
Fixpoint includes (s sub : jsstring) {struct s} : bool :=
  startsWith s sub
  || match s with
     | [] => false
     | _ :: rest => includes rest sub
     end.

(** ** [server.js] *)

Module Server.

(** [process.env], as far as the routes read it. *)
Record environment : Type := {
  PERPLEXITY_API_KEY : option jsstring;
  GEMINI_API_KEY : option jsstring;
  DEFAULT_AI_PROVIDER : option jsstring
}.

Definition isValidAPIKey (apiKey : option jsstring) : jsval :=
  match apiKey with
  | None => None
  | Some key =>
      and_then (Some (JStr key))
        (and_then (Some (JBool (negb (jsstring_eqb key placeholder))))
           (and_then (Some (JBool (startsWith key (js "pplx-"))))
              (Some (JBool (20 <? List.length key)%nat))))
  end.

Definition isValidGeminiAPIKey (apiKey : option jsstring) : jsval :=
  match apiKey with
  | None => None
  | Some key =>
      and_then (Some (JStr key))
        (and_then (Some (JBool (startsWith key (js "AIza"))))
           (Some (JBool (20 <? List.length key)%nat)))
  end.

(** The body of [GET /api/config] as the client receives it: a member
    whose value is [undefined] is left out by [res.json]. *)
Definition config (env : environment) : json :=
  let defaultProvider :=
    match DEFAULT_AI_PROVIDER env with
    | Some (c :: p) => c :: p
    | _ => js "gemini"
    end in
  JObj (match PERPLEXITY_API_KEY env with
        | Some k => [(js "perplexityApiKey", JStr k)]
        | None => []
        end ++
        match GEMINI_API_KEY env with
        | Some k => [(js "geminiApiKey", JStr k)]
        | None => []
        end ++
        [(js "defaultProvider", JStr defaultProvider)]).

Definition undetermined : json :=
  no_food (js "Unable to determine if food is present. Please take a clear photo of food items.").

Definition no_json_found : json :=
  no_food (js "Unable to analyze image. Please take a clear photo of food items.").

Definition parse_failed : json :=
  no_food (js "Error analyzing image. Please try again with a clear photo of food items.").

(** [analysisText.match(...)]: only a string has the method. *)
Definition text_match (analysisText : jsval) : result (option jsstring) :=
  match analysisText with
  | Some (JStr s) => Return (match_braces s)
  | _ => Throw TypeError
  end.

(** The [try]/[catch] that ends [analyzeWithGemini] and
    [analyzeWithPerplexity]; the two copies differ in their log lines
    only. *)
Definition parse_analysis_text (analysisText : jsval) : result json :=
  try_catch
    (analysisMatch <- text_match analysisText ;;
     match analysisMatch with
     | Some matched =>
         parsedResult <- JSON.parse matched ;;
         foodDetected <- member (Some parsedResult) (js "foodDetected") ;;
         if is_bool foodDetected false then Return parsedResult
         else if is_bool foodDetected true then Return parsedResult
         else Return undetermined
     | None => Return no_json_found
     end)
    (fun _ => Return parse_failed).

(** [imageData.split(',')[1]]: what stands between the first and the
    second comma, [undefined] when there is no comma. *)
Fixpoint upto_comma (s : jsstring) : jsstring :=
  match s with
  | [] => []
  | c :: r => if N.eqb c (ch ",") then [] else c :: upto_comma r
  end.

Fixpoint after_comma (s : jsstring) : option jsstring :=
  match s with
  | [] => None
  | c :: r => if N.eqb c (ch ",") then Some r else after_comma r
  end.

Definition inline_data (imageData : jsval) : result (option jsstring) :=
  match imageData with
  | Some (JStr s) => Return (option_map upto_comma (after_comma s))
  | _ => Throw TypeError
  end.

Definition analyzeWithGemini
    (imageData : jsval) (apiKey : option jsstring) (reply : fetch_outcome)
  : result json :=
  _ <- inline_data imageData ;;
  match reply with
  | FetchRejected message => Throw (NetworkError message)
  | Response status text =>
      if negb (ok status)
      then Throw (HttpFailure (js "Gemini API failed") status text)
      else
        result <- JSON.parse text ;;
        candidates <- member (Some result) (js "candidates") ;;
        candidate <- member candidates (js "0") ;;
        content <- member candidate (js "content") ;;
        parts <- member content (js "parts") ;;
        part <- member parts (js "0") ;;
        analysisText <- member part (js "text") ;;
        parse_analysis_text analysisText
  end.

Definition analyzeWithPerplexity
    (imageData : jsval) (apiKey : option jsstring) (reply : fetch_outcome)
  : result json :=
  match reply with
  | FetchRejected message => Throw (NetworkError message)
  | Response status text =>
      if negb (ok status)
      then Throw (HttpFailure (js "Perplexity API failed") status text)
      else
        result <- JSON.parse text ;;
        choices <- member (Some result) (js "choices") ;;
        choice <- member choices (js "0") ;;
        message <- member choice (js "message") ;;
        analysisText <- member message (js "content") ;;
        parse_analysis_text analysisText
  end.

Inductive provider : Type := Gemini | Perplexity.

(** What a route answers: [res.status(status).json(body)], with [body] the
    value the handler passes to [res.json], or from a [catch] the status
    500 with [{error, message: cause.message}]. *)
Inductive response : Type :=
| Reply (status : Z) (body : json)
| Failed (error : jsstring) (cause : js_error).

Definition status_of (r : response) : Z :=
  match r with
  | Reply status _ => status
  | Failed _ _ => 500%Z
  end.

(** A handled request: the response sent and the provider analysis that
    was called on the way, if any. *)
Record handled : Type := {
  sent : response;
  invoked : option provider
}.

Definition missing_image : json :=
  error_body (js "Missing image data") (js "Image data is required for analysis").

Definition gemini_not_configured : json :=
  error_body (js "Gemini API key not configured")
             (js "Please set a valid Gemini API key in environment variables").

Definition perplexity_not_configured : json :=
  error_body (js "Perplexity API key not configured")
             (js "Please set a valid Perplexity API key in environment variables").

(** [res.json(analysisResult)], or the [catch] of the route.  The value is
    handed to [res.json] as it is; how [JSON.stringify] then writes it (a
    number that is not finite as [null], a repeated key once) is outside
    this model. *)
Definition send_analysis (r : result json) : response :=
  match r with
  | Return analysisResult => Reply 200 analysisResult
  | Throw e => Failed (js "Analysis failed") e
  end.

(** [const { imageData, provider = 'gemini' } = req.body]: the default
    replaces [undefined] only. *)
Definition destructure (body : jsval) : result (jsval * jsval) :=
  imageData <- member body (js "imageData") ;;
  provider <- member body (js "provider") ;;
  Return (imageData,
          match provider with
          | None => Some (JStr (js "gemini"))
          | Some _ => provider
          end).

(** The handler of [POST /api/analyze], on the parsed request body and the
    outcome of the provider call it may make. *)
Definition analyze (env : environment) (body : jsval) (reply : fetch_outcome)
  : handled :=
  match destructure body with
  | Throw e => {| sent := Failed (js "Analysis failed") e; invoked := None |}
  | Return (imageData, provider) =>
      if negb (truthy imageData)
      then {| sent := Reply 400 missing_image; invoked := None |}
      else if is_string provider (js "gemini") then
        let apiKey := GEMINI_API_KEY env in
        if negb (truthy (isValidGeminiAPIKey apiKey))
        then {| sent := Reply 400 gemini_not_configured; invoked := None |}
        else {| sent := send_analysis (analyzeWithGemini imageData apiKey reply);
                invoked := Some Gemini |}
      else
        let apiKey := PERPLEXITY_API_KEY env in
        if negb (truthy (isValidAPIKey apiKey))
        then {| sent := Reply 400 perplexity_not_configured; invoked := None |}
        else {| sent := send_analysis (analyzeWithPerplexity imageData apiKey reply);
                invoked := Some Perplexity |}
  end.

(** *** The routes that test a key *)

Definition model_unavailable : json :=
  JObj [(js "success", JBool false);
        (js "message", JStr (js "API key is valid but model is not available"));
        (js "details", JStr (js "The specified Perplexity model is not currently available. Please check the documentation for the correct model name."))].

Definition test_passed (message : jsstring) : json :=
  JObj [(js "success", JBool true); (js "message", JStr message)].

Definition testPerplexityAPI (apiKey : option jsstring) (reply : fetch_outcome)
  : result json :=
  match reply with
  | FetchRejected message => Throw (NetworkError message)
  | Response status errorText =>
      if negb (ok status) then
        if includes errorText (js "Invalid model")
        then Return model_unavailable
        else Throw (HttpFailure (js "API test failed") status errorText)
      else Return (test_passed (js "Perplexity API key is valid and working"))
  end.

Definition testGeminiAPI (apiKey : option jsstring) (reply : fetch_outcome)
  : result json :=
  match reply with
  | FetchRejected message => Throw (NetworkError message)
  | Response status errorText =>
      if negb (ok status)
      then Throw (HttpFailure (js "API test failed") status errorText)
      else Return (test_passed (js "Gemini API key is valid and working"))
  end.

Definition send_test (r : result json) : response :=
  match r with
  | Return testResponse => Reply 200 testResponse
  | Throw e => Failed (js "API test failed") e
  end.

(** The handler of [GET /api/test-perplexity]. *)
Definition test_perplexity (env : environment) (reply : fetch_outcome) : handled :=
  let apiKey := PERPLEXITY_API_KEY env in
  if negb (truthy (isValidAPIKey apiKey))
  then {| sent := Reply 400
                    (error_body (js "API key not configured")
                       (js "Please set a valid Perplexity API key in environment variables"));
          invoked := None |}
  else {| sent := send_test (testPerplexityAPI apiKey reply);
          invoked := Some Perplexity |}.

(** The handler of [GET /api/test-gemini]. *)
Definition test_gemini (env : environment) (reply : fetch_outcome) : handled :=
  let apiKey := GEMINI_API_KEY env in
  if negb (truthy (isValidGeminiAPIKey apiKey))
  then {| sent := Reply 400
                    (error_body (js "API key not configured")
                       (js "Please set a valid Gemini API key in environment variables"));
          invoked := None |}
  else {| sent := send_test (testGeminiAPI apiKey reply);
          invoked := Some Gemini |}.

End Server.

(** ** [app.js], class [FoodVisionApp] *)

Module App.

Definition getAPIConfigFromServer (reply : fetch_outcome) : json :=
  match reply with
  | FetchRejected _ => JNull
  | Response _ text =>
      match JSON.parse text with
      | Return config => config
      | Throw _ => JNull
      end
  end.

(** [isValidAPIKey(apiKey, provider = 'gemini')]; [startsWith] is a method
    of strings only, so a truthy key of another type throws. *)
Definition isValidAPIKey (apiKey provider : jsval) : result bool :=
  let provider :=
    match provider with
    | None => Some (JStr (js "gemini"))
    | Some _ => provider
    end in
  if negb (truthy apiKey) then Return false
  else
    match apiKey with
    | Some (JStr key) =>
        if is_string provider (js "gemini")
        then Return (startsWith key (js "AIza") && (20 <? List.length key)%nat)
        else Return (negb (jsstring_eqb key placeholder)
                     && startsWith key (js "pplx-")
                     && (20 <? List.length key)%nat)
    | _ => Throw TypeError
    end.

Definition strings (items : list string) : json :=
  JArr (map (fun s => JStr (js s)) items).

Definition details (category calories protein carbs fat fiber sodium : string) : json :=
  JObj [(js "category", JStr (js category));
        (js "estimatedCalories", JStr (js calories));
        (js "protein", JStr (js protein));
        (js "carbs", JStr (js carbs));
        (js "fat", JStr (js fat));
        (js "fiber", JStr (js fiber));
        (js "sodium", JStr (js sodium))].

Definition dish (rating : Z) (ratingName foodName : string) (productDetails : json)
    (healthScore : Z) (pros cons recommendations : list string) : json :=
  JObj [(js "foodDetected", JBool true);
        (js "rating", JNum rating 0);
        (js "ratingName", JStr (js ratingName));
        (js "foodName", JStr (js foodName));
        (js "productDetails", productDetails);
        (js "healthScore", JNum healthScore 0);
        (js "pros", strings pros);
        (js "cons", strings cons);
        (js "recommendations", strings recommendations)].

Definition mockData : list json :=
  [ dish 1 "Premium" "Grilled Salmon with Quinoa"
      (details "Healthy Seafood" "420 kcal" "28g" "35g" "18g" "8g" "580mg")
      92
      ["Perfectly grilled salmon"; "Nutrient-rich quinoa"; "Beautiful presentation";
       "Balanced macronutrients"; "Fresh vegetables"]
      ["Could use more seasoning"; "Portion slightly small"]
      ["Add lemon for extra flavor"; "Consider larger portion for active individuals"];
    dish 2 "High Standard" "Mediterranean Chicken Bowl"
      (details "Mediterranean" "380 kcal" "32g" "28g" "14g" "12g" "620mg")
      88
      ["Fresh ingredients"; "Good protein content"; "Healthy vegetables";
       "Nice seasoning"; "Balanced nutrition"]
      ["Could use more sauce"; "Portion slightly small"]
      ["Add tahini sauce"; "Include more vegetables for fiber"];
    dish 3 "Standard" "Homemade Pasta with Vegetables"
      (details "Italian Home Cooking" "450 kcal" "18g" "65g" "12g" "8g" "580mg")
      75
      ["Fresh pasta"; "Good portion size"; "Contains vegetables"; "Homemade taste"]
      ["Could use more protein"; "Sauce needs improvement"; "Slightly overcooked"]
      ["Add lean meat or cheese"; "Improve sauce consistency"; "Cook pasta al dente"] ].

Definition no_food_detected : json :=
  no_food (js "No food detected in this image. Please take a photo showing actual food items like prepared dishes, meals, or food ready to eat.").

(** [array[index]] for an integer index: [undefined] out of range. *)
Definition at_index (array : list json) (index : Z) : jsval :=
  if (index <? 0)%Z then None else nth_error array (Z.to_nat index).

(** [getMockAnalysisResult()], as a function of its two calls of
    [Math.random()], in the order they are made; the second is made only
    when food is to be detected.  A draw is a double, given by its exact
    value; the literal [0.7] and the product with the length are doubles
    too. *)
Definition getMockAnalysisResult (draw1 draw2 : Q) : jsval :=
  let shouldDetectFood := negb (Qle_bool draw1 (to_double (7 # 10))) in
  if negb shouldDetectFood then Some no_food_detected
  else at_index mockData
         (Qfloor (to_double (draw2 * inject_Z (Z.of_nat (List.length mockData))))).

Inductive notice : Type :=
| DemoModeNoConfig
| DemoModeNoKey
| ApiError.

(** The promise [analyzeImageWithAI] returns, once settled, and the
    notification shown on the way. *)
Record outcome : Type := {
  shown : option notice;
  settled : result jsval
}.

(** [config.defaultProvider || 'gemini'] *)
Definition provider_of (config : json) : result jsval :=
  defaultProvider <- member (Some config) (js "defaultProvider") ;;
  Return (if truthy defaultProvider then defaultProvider
          else Some (JStr (js "gemini"))).

(** [provider === 'gemini' ? config.geminiApiKey : config.perplexityApiKey] *)
Definition apiKey_of (config : json) (provider : jsval) : result jsval :=
  if is_string provider (js "gemini")
  then member (Some config) (js "geminiApiKey")
  else member (Some config) (js "perplexityApiKey").

(** The [try] block around the call of [/api/analyze]. *)
Definition request_analysis (reply : fetch_outcome) : result jsval :=
  match reply with
  | FetchRejected message => Throw (NetworkError message)
  | Response status text =>
      if negb (ok status)
      then Throw (HttpFailure (js "Analysis failed") status text)
      else
        analysisData <- JSON.parse text ;;
        Return (Some analysisData)
  end.

(** The provider and the key are chosen from the configuration, and the
    key is validated for that provider. *)
Definition configured_key_is_valid (config : json) : result bool :=
  provider <- provider_of config ;;
  apiKey <- apiKey_of config provider ;;
  isValidAPIKey apiKey provider.

(** The two [console.log] lines that stand outside the [try] print the
    provider through a template literal; [console.error] and the
    notification inside the [catch] print it again, after [log] has. *)
Definition analyzeImageWithAI
    (config_reply : fetch_outcome) (imageData : jsstring)
    (reply : fetch_outcome) (draw1 draw2 : Q) : outcome :=
  let config := getAPIConfigFromServer config_reply in
  if negb (truthy (Some config))
  then {| shown := Some DemoModeNoConfig;
          settled := Return (getMockAnalysisResult draw1 draw2) |}
  else
    match provider_of config with
    | Throw e => {| shown := None; settled := Throw e |}
    | Return provider =>
        match (apiKey <- apiKey_of config provider ;;
               isValidAPIKey apiKey provider) with
        | Throw e => {| shown := None; settled := Throw e |}
        | Return false =>
            match interpolate provider with
            | Throw e => {| shown := None; settled := Throw e |}
            | Return _ =>
                {| shown := Some DemoModeNoKey;
                   settled := Return (getMockAnalysisResult draw1 draw2) |}
            end
        | Return true =>
            match interpolate provider with
            | Throw e => {| shown := None; settled := Throw e |}
            | Return _ =>
                match request_analysis reply with
                | Return analysisData =>
                    {| shown := None; settled := Return analysisData |}
                | Throw _ =>
                    {| shown := Some ApiError;
                       settled := Return (getMockAnalysisResult draw1 draw2) |}
                end
            end
        end
    end.

(** The body of the request to [/api/analyze], as the server reads it:
    [JSON.stringify({imageData, provider})] leaves out a member that is
    [undefined]. *)
Definition analyze_request (imageData : jsstring) (provider : jsval) : jsval :=
  Some (JObj ((js "imageData", JStr imageData)
              :: match provider with
                 | Some p => [(js "provider", p)]
                 | None => []
                 end)).

(** *** The camera *)

Definition mobileUserAgents : list jsstring :=
  [js "Android"; js "webOS"; js "iPhone"; js "iPad"; js "iPod";
   js "BlackBerry"; js "IEMobile"; js "Opera Mini"].

Definition detectMobileDevice (userAgent : jsstring) : bool :=
  existsb (fun agent => includes userAgent agent) mobileUserAgents.

Definition getCameraConstraints (isMobile : bool) : json :=
  JObj [(js "video",
         JObj [(js "facingMode", JStr (if isMobile then js "environment" else js "user"));
               (js "width", JObj [(js "ideal", JNum 1280 0)]);
               (js "height", JObj [(js "ideal", JNum 720 0)])])].

(** How [navigator.mediaDevices.getUserMedia] settles: with a stream, or
    rejected with an error of some name. *)
Inductive media_outcome : Type :=
| StreamObtained
| MediaRejected (name : jsstring).

(** What happens first to the video element in [waitForVideoLoad]: its
    metadata loads, the five seconds pass, or it reports an error. *)
Inductive video_outcome : Type :=
| MetadataLoaded
| LoadTimeout
| VideoError.

(** What [initializeCamera] reads of the page. *)
Record browser : Type := {
  has_getUserMedia : bool;
  protocol : jsstring;
  hostname : jsstring;
  userAgent : jsstring;
  getUserMedia : media_outcome;
  has_camera_element : bool;
  video : video_outcome
}.

Inductive camera_failure : Type :=
| CameraError (message : jsstring)
| MediaFailure (name : jsstring)
| VideoFailure.

(** Whether [this.camera] and [this.cameraStream] are set. *)
Record camera_state : Type := {
  camera : bool;
  cameraStream : bool
}.

(** A run of [initializeCamera]: the fields afterwards, the constraints
    [getUserMedia] was called with, if it was, and what was thrown, if
    anything. *)
Record camera_run : Type := {
  state : camera_state;
  requested : option json;
  failure : option camera_failure
}.

Definition isCameraSupported (b : browser) : bool := has_getUserMedia b.

Definition initializeCamera (b : browser) (before : camera_state) : camera_run :=
  if negb (isCameraSupported b)
  then {| state := before; requested := None;
          failure := Some (CameraError (js "Camera API not supported in this browser")) |}
  else if negb (jsstring_eqb (protocol b) (js "https:"))
          && negb (jsstring_eqb (hostname b) (js "localhost"))
  then {| state := before; requested := None;
          failure := Some (CameraError (js "HTTPS is required for camera access. Please use https://")) |}
  else
    let isMobileDevice := detectMobileDevice (userAgent b) in
    let cameraConstraints := getCameraConstraints isMobileDevice in
    match getUserMedia b with
    | MediaRejected name =>
        {| state := before; requested := Some cameraConstraints;
           failure := Some (MediaFailure name) |}
    | StreamObtained =>
        let after := {| camera := has_camera_element b; cameraStream := true |} in
        if negb (has_camera_element b)
        then {| state := after; requested := Some cameraConstraints;
                failure := Some (CameraError (js "Camera video element not found")) |}
        else
          {| state := after; requested := Some cameraConstraints;
             failure :=
               match video b with
               | MetadataLoaded => None
               | LoadTimeout => Some (CameraError (js "Camera initialization timeout"))
               | VideoError => Some VideoFailure
               end |}
    end.

(** [captureImageFromCamera()], with [frame] what the canvas encodes. *)
Definition captureImageFromCamera (s : camera_state) (frame : jsstring)
  : camera_failure + jsstring :=
  if negb (camera s)
  then inl (CameraError (js "Camera not initialized"))
  else inr frame.

End App.

(** ** Predicates used in the statements *)

(** [integer_in lo hi j]: [j] is a number whose value is an integer of
    the range [lo..hi]. *)
Definition integer_in (lo hi : Z) (j : json) : bool :=
  match j with
  | JNum m e =>
      if (0 <=? e)%Z
      then (lo <=? m * 10 ^ e)%Z && (m * 10 ^ e <=? hi)%Z
      else (m mod 10 ^ (- e) =? 0)%Z
           && (lo <=? m / 10 ^ (- e))%Z && (m / 10 ^ (- e) <=? hi)%Z
  | _ => false
  end.

Definition absent_or_integer_in (lo hi : Z) (v : jsval) : bool :=
  match v with
  | None => true
  | Some j => integer_in lo hi j
  end.

(** [field j k]: the member [k] of the object [j], [undefined] when [j]
    is no object or has no such member. *)
Definition field (j : json) (k : string) : jsval :=
  match j with
  | JObj members => lookup (js k) members
  | _ => None
  end.



(** A reader made progress on [s]: it did not run out of fuel, and what
    it left to read is shorter than [s]. *)
Definition progress {A : Type} (p : JSON.parsed A) (s : jsstring) : Prop :=
  match p with
  | JSON.Parsed _ rest => (List.length rest < List.length s)%nat
  | JSON.Malformed => True
  | JSON.OutOfFuel => False
  end.

(** What [Math.random()] returns: a double that is at least 0 and less
    than 1, so at most [1 - 2^-53]. *)
Definition is_draw (d : Q) : Prop :=
  0 <= d /\ d <= 9007199254740991 # 9007199254740992.


(** The [defaultProvider] of a configuration, when it is there, converts
    to a string. *)
Definition provider_converts (config : json) : Prop :=
  forall p,
    member (Some config) (js "defaultProvider") = Return (Some p) ->
    coercion_throws p = false.

(** The key members of a configuration are strings when they are there,
    as they are in what [/api/config] sends. *)
Definition keys_are_strings (config : json) : Prop :=
  forall k v,
    k = js "geminiApiKey" \/ k = js "perplexityApiKey" ->
    member (Some config) k = Return (Some v) ->
    exists key, v = JStr key.

(** The call of [/api/analyze] threw or was answered outside [200..299]. *)
Definition call_failed (reply : fetch_outcome) : Prop :=
  match reply with
  | FetchRejected _ => True
  | Response status _ => ok status = false
  end.

(** A text has a brace-delimited part when an opening brace is followed,
    somewhere, by a closing brace. *)
Definition brace_delimited (text : jsstring) : Prop :=
  exists pre mid post, text = pre ++ [ch "{"] ++ mid ++ [ch "}"] ++ post.

Definition unable_to_analyze : jsstring :=
  js "Unable to analyze image. Please take a clear photo of food items.".

Definition error_analyzing : jsstring :=
  js "Error analyzing image. Please try again with a clear photo of food items.".

Definition example_request : jsval :=
  Some (JObj [(js "imageData", JStr (js "data:image/jpeg;base64,Zm9v"));
              (js "provider", JStr (js "gemini"))]).

(** The page is on [https:] or on the host [localhost]. *)
Definition secure_origin (b : App.browser) : Prop :=
  App.protocol b = js "https:" \/ App.hostname b = js "localhost".

(** Closes the side cases of a case analysis. *)
Ltac settle_cases :=
  repeat split; try discriminate; try tauto; eauto;
  try (let H := fresh in
       intros H; decompose [and ex] H; clear H;
       first [discriminate | congruence]);
  try (let H := fresh in intros H; now destruct H).

(** * Properties *)

(** ** Strings *)

Lemma jsstring_eqb_eq (a b : jsstring) : jsstring_eqb a b = true <-> a = b.
Proof.
  revert b; induction a as [|x a IH]; intros [|y b]; simpl; split;
    try congruence; try reflexivity.
  - intros H. apply andb_true_iff in H as [Hx Hab].
    apply N.eqb_eq in Hx. apply IH in Hab. congruence.
  - intros H. injection H as -> ->.
    rewrite N.eqb_refl. simpl. now apply IH.
Qed.

Lemma jsstring_eqb_neq (a b : jsstring) : jsstring_eqb a b = false <-> a <> b.
Proof.
  rewrite <- jsstring_eqb_eq. destruct (jsstring_eqb a b); split; congruence.
Qed.

Lemma startsWith_prefix (s prefix : jsstring) :
  startsWith s prefix = true <-> exists rest, s = prefix ++ rest.
Proof.
  revert s; induction prefix as [|p prefix IH]; intros s; simpl.
  - split; [intros _; now exists s | reflexivity].
  - destruct s as [|c s].
    + split; [discriminate | intros [rest H]; discriminate].
    + rewrite andb_true_iff, N.eqb_eq, IH. split.
      * intros [-> [rest ->]]. now exists rest.
      * intros [rest H]. injection H as -> ->. split; [reflexivity | now exists rest].
Qed.

(** ** Doubles *)

Lemma pow2_pos (k : Z) : 0 < pow2 k.
Proof.
  unfold pow2. destruct (0 <=? k)%Z eqn:E.
  - apply Z.leb_le in E. rewrite <- (Zlt_Qlt 0). now apply Z.pow_pos_nonneg.
  - reflexivity.
Qed.

Lemma pow2_small (k : Z) : (k <= -51)%Z -> pow2 k <= 1 # 2251799813685248.
Proof.
  intros Hk. unfold pow2.
  destruct (0 <=? k)%Z eqn:E; [apply Z.leb_le in E; lia|].
  unfold Qle. cbn [Qnum Qden].
  rewrite Z2Pos.id by (apply Z.pow_pos_nonneg; lia).
  change (Z.pos 2251799813685248) with (2 ^ 51)%Z.
  rewrite !Z.mul_1_l. apply Z.pow_le_mono_r; lia.
Qed.

Lemma round_half_even_floor (r : Q) : (Qfloor r <= round_half_even r)%Z.
Proof.
  unfold round_half_even.
  destruct (Qcompare _ _); [destruct (Z.even _)|..]; lia.
Qed.

Lemma round_half_even_above (r : Q) : inject_Z (round_half_even r) <= r + (1 # 2).
Proof.
  unfold round_half_even. pose proof (Qfloor_le r) as Hf.
  destruct (Qcompare (r - inject_Z (Qfloor r)) (1 # 2)) eqn:E.
  - apply Qeq_alt in E. destruct (Z.even (Qfloor r)); [lra|].
    rewrite inject_Z_plus. change (inject_Z 1) with 1. lra.
  - lra.
  - apply Qgt_alt in E. rewrite inject_Z_plus. change (inject_Z 1) with 1. lra.
Qed.

Lemma binade_below_4 (q : Q) : q < 4 -> (binade q <= 1)%Z.
Proof.
  intros Hq. unfold binade.
  set (e0 := (Z.log2 (Qnum q) - Z.log2 (Z.pos (Qden q)))%Z).
  assert (He0 : (e0 <= 2)%Z).
  { subst e0. unfold Qlt in Hq. cbn [Qnum Qden] in Hq.
    destruct (Z.le_gt_cases (Qnum q) 0) as [Hn | Hn].
    - rewrite (Z.log2_nonpos _ Hn). pose proof (Z.log2_nonneg (Z.pos (Qden q))). lia.
    - assert (Hle : (Qnum q <= Z.pos (Qden q) * 2 ^ 2)%Z) by lia.
      apply Z.log2_le_mono in Hle.
      rewrite Z.log2_mul_pow2 in Hle by lia. lia. }
  destruct (Qle_bool (pow2 e0) q) eqn:E; [|lia].
  destruct (Z.eq_dec e0 2) as [H2 | H2]; [|lia].
  apply Qle_bool_iff in E. rewrite H2 in E. change (pow2 2) with (inject_Z 4) in E.
  exfalso. apply (Qlt_irrefl q). eapply Qlt_le_trans; [exact Hq | exact E].
Qed.

Lemma binade_above_1 (q : Q) : 1 <= q -> (0 <= binade q)%Z.
Proof.
  intros Hq. unfold binade.
  set (e0 := (Z.log2 (Qnum q) - Z.log2 (Z.pos (Qden q)))%Z).
  assert (He0 : (0 <= e0)%Z).
  { subst e0. unfold Qle in Hq. cbn [Qnum Qden] in Hq.
    assert (Hle : (Z.pos (Qden q) <= Qnum q)%Z) by lia.
    apply Z.log2_le_mono in Hle. lia. }
  destruct (Qle_bool (pow2 e0) q) eqn:E; [exact He0|].
  destruct (Z.eq_dec e0 0) as [H0 | H0]; [|lia].
  rewrite H0 in E. change (pow2 0) with 1 in E.
  apply Qle_bool_iff in Hq. congruence.
Qed.

Lemma ulp_pos (q : Q) : 0 < ulp q.
Proof. apply pow2_pos. Qed.

Lemma ulp_below_4 (q : Q) : q < 4 -> ulp q <= 1 # 2251799813685248.
Proof.
  intros Hq. apply pow2_small. pose proof (binade_below_4 Hq). lia.
Qed.

(** Between 1 and 4 the doubles are the multiples of [2^-52] or of
    [2^-51]. *)
Lemma ulp_between_1_and_4 (q : Q) :
  1 <= q -> q < 4 ->
  ulp q = (1 # 4503599627370496) \/ ulp q = (1 # 2251799813685248).
Proof.
  intros H1 H4. unfold ulp.
  pose proof (binade_below_4 H4). pose proof (binade_above_1 H1).
  assert (Hb : binade q = 0%Z \/ binade q = 1%Z) by lia.
  destruct Hb as [-> | ->]; [left | right]; reflexivity.
Qed.

Lemma to_double_positive (q : Q) :
  0 < q -> to_double q = inject_Z (round_half_even (q / ulp q)) * ulp q.
Proof.
  intros Hq. unfold to_double.
  apply Qgt_alt in Hq. now rewrite Hq.
Qed.

Lemma to_double_zero (q : Q) : q == 0 -> to_double q = 0.
Proof.
  intros Hq. unfold to_double. apply Qeq_alt in Hq. now rewrite Hq.
Qed.

(** Below 4 rounding adds at most [2^-52]. *)
Lemma to_double_above (q : Q) :
  0 <= q -> q < 4 -> to_double q <= q + (1 # 4503599627370496).
Proof.
  intros H0 H4. destruct (Qle_lt_or_eq _ _ H0) as [Hpos | Hz].
  - rewrite to_double_positive by exact Hpos.
    pose proof (ulp_pos q) as Hu. pose proof (ulp_below_4 H4) as Hu4.
    pose proof (round_half_even_above (q / ulp q)) as Hr.
    apply Qle_trans with ((q / ulp q + (1 # 2)) * ulp q).
    + apply Qmult_le_compat_r; [exact Hr | now apply Qlt_le_weak].
    + assert (E : (q / ulp q + (1 # 2)) * ulp q == q + (1 # 2) * ulp q).
      { field. intros H. rewrite H in Hu. now apply (Qlt_irrefl 0). }
      rewrite E. lra.
  - rewrite to_double_zero by (symmetry; exact Hz). lra.
Qed.

(** Rounding does not go below an integer that the value has reached. *)
Lemma to_double_reaches (i : Z) (q : Q) :
  (0 <= i)%Z -> inject_Z i <= q -> q < 4 -> inject_Z i <= to_double q.
Proof.
  intros Hi Hiq H4.
  assert (H0 : 0 <= q).
  { apply Qle_trans with (inject_Z i); [|exact Hiq].
    rewrite <- (Zle_Qle 0). exact Hi. }
  destruct (Qle_lt_or_eq _ _ H0) as [Hpos | Hz].
  2:{ rewrite to_double_zero by (symmetry; exact Hz). rewrite Hz. exact Hiq. }
  rewrite to_double_positive by exact Hpos.
  pose proof (ulp_pos q) as Hu.
  pose proof (round_half_even_floor (q / ulp q)) as Hn.
  rewrite Zle_Qle in Hn.
  apply Qle_trans with (inject_Z (Qfloor (q / ulp q)) * ulp q);
    [|apply Qmult_le_compat_r; [exact Hn | now apply Qlt_le_weak]].
  destruct (Z.eq_dec i 0) as [-> | Hne].
  - apply Qmult_le_0_compat; [|now apply Qlt_le_weak].
    rewrite <- (Zle_Qle 0). change 0%Z with (Qfloor 0). apply Qfloor_resp_le.
    apply Qle_shift_div_l; [exact Hu | lra].
  - assert (H1 : 1 <= q).
    { apply Qle_trans with (inject_Z i); [|exact Hiq].
      rewrite <- (Zle_Qle 1). lia. }
    assert (Hgrid : forall d : positive,
               ulp q = (1 # d) ->
               inject_Z i <= inject_Z (Qfloor (q / ulp q)) * ulp q).
    { intros d Hd. rewrite Hd.
      assert (Hfl : (i * Z.pos d <= Qfloor (q / (1 # d)))%Z).
      { rewrite <- (Qfloor_Z (i * Z.pos d)). apply Qfloor_resp_le.
        apply Qle_shift_div_l; [reflexivity|].
        rewrite inject_Z_mult.
        assert (E : inject_Z i * inject_Z (Z.pos d) * (1 # d) == inject_Z i).
        { unfold Qeq, Qmult, inject_Z. cbn [Qnum Qden]. lia. }
        rewrite E. exact Hiq. }
      rewrite Zle_Qle in Hfl.
      apply Qle_trans with (inject_Z (i * Z.pos d) * (1 # d)).
      - unfold Qle, Qmult, inject_Z. cbn [Qnum Qden]. lia.
      - apply Qmult_le_compat_r; [exact Hfl | discriminate]. }
    destruct (ulp_between_1_and_4 H1 H4) as [Hd | Hd]; now apply (Hgrid _ Hd).
Qed.



(** ** The regular expression *)

Lemma from_first_open_some (s t : jsstring) :
  from_first_open s = Some t ->
  exists pre rest, s = pre ++ ch "{" :: rest /\ t = ch "{" :: rest
                   /\ ~ In (ch "{") pre.
Proof.
  revert t; induction s as [|c s IH]; intros t; simpl; [discriminate|].
  destruct (N.eqb c (ch "{")) eqn:E.
  - intros [= <-]. apply N.eqb_eq in E. subst c.
    exists [], s. simpl. intuition.
  - intros H. destruct (IH _ H) as (pre & rest & -> & -> & Hpre).
    exists (c :: pre), rest. repeat split; try reflexivity.
    simpl. intros [-> | Hin]; [|now apply Hpre].
    now rewrite N.eqb_refl in E.
Qed.

Lemma upto_last_close_some (s t : jsstring) :
  upto_last_close s = Some t ->
  exists mid post, t = mid ++ [ch "}"] /\ s = t ++ post /\ ~ In (ch "}") post.
Proof.
  revert t; induction s as [|c s IH]; simpl; [discriminate|]. intros t.
  destruct (upto_last_close s) as [u|] eqn:Eu.
  - intros [= <-]. destruct (IH u eq_refl) as (mid & post & -> & Hs & Hpost).
    exists (c :: mid), post.
    split; [reflexivity | split; [simpl; f_equal; exact Hs | exact Hpost]].
  - destruct (N.eqb c (ch "}")) eqn:E; [|discriminate].
    intros [= <-]. apply N.eqb_eq in E. subst c.
    exists [], s. repeat split; try reflexivity.
    clear IH. induction s as [|d s IHs]; simpl in *; [tauto|].
    destruct (upto_last_close s); [discriminate|].
    destruct (N.eqb d (ch "}")) eqn:Ed; [discriminate|].
    intros [-> | Hin]; [now rewrite N.eqb_refl in Ed | now apply IHs].
Qed.

Lemma upto_last_close_finds (s : jsstring) :
  In (ch "}") s -> exists t, upto_last_close s = Some t.
Proof.
  induction s as [|c s IH]; simpl; [tauto|].
  intros [-> | Hin].
  - destruct (upto_last_close s); [eauto|].
    rewrite N.eqb_refl. eauto.
  - destruct (IH Hin) as [t ->]. eauto.
Qed.

Lemma from_first_open_finds (pre tail : jsstring) :
  In (ch "}") tail ->
  exists rest, from_first_open (pre ++ ch "{" :: tail) = Some (ch "{" :: rest)
               /\ In (ch "}") rest.
Proof.
  intros Hin. induction pre as [|c pre IH]; simpl.
  - exists tail. rewrite ?N.eqb_refl. auto.
  - destruct (N.eqb c (ch "{")) eqn:E; [|exact IH].
    apply N.eqb_eq in E. subst c.
    exists (pre ++ ch "{" :: tail). split; [reflexivity|].
    apply in_or_app. right. now right.
Qed.

(** The match is the part from the first opening brace to the last closing
    brace. *)
Lemma match_braces_some (text matched : jsstring) :
  match_braces text = Some matched ->
  exists pre mid post,
    text = pre ++ matched ++ post
    /\ matched = [ch "{"] ++ mid ++ [ch "}"]
    /\ ~ In (ch "{") pre /\ ~ In (ch "}") post.
Proof.
  unfold match_braces.
  destruct (from_first_open text) as [[|o r]|] eqn:Ef; try discriminate.
  destruct (upto_last_close r) as [body|] eqn:Eu; [|discriminate].
  intros [= <-].
  destruct (from_first_open_some _ Ef) as (pre & rest & Ht & [= -> ->] & Hpre).
  destruct (upto_last_close_some _ Eu) as (mid & post & -> & Hr & Hpost).
  exists pre, mid, post. repeat split; auto.
  rewrite Ht, Hr. simpl. now rewrite <- app_assoc.
Qed.

Lemma match_braces_none (text : jsstring) :
  match_braces text = None <-> ~ brace_delimited text.
Proof.
  split.
  - intros Hnone (pre & mid & post & ->).
    destruct (@from_first_open_finds pre (mid ++ [ch "}"] ++ post))
      as (rest & Hf & Hin).
    { apply in_or_app. right. now left. }
    unfold match_braces in Hnone. simpl in Hf. simpl in Hnone.
    rewrite Hf in Hnone.
    destruct (upto_last_close_finds _ Hin) as [t Ht].
    rewrite Ht in Hnone. discriminate.
  - intros Hno. destruct (match_braces text) as [m|] eqn:E; [|reflexivity].
    destruct Hno. destruct (match_braces_some _ E) as (pre & mid & post & -> & -> & _).
    exists pre, mid, post. now rewrite <- !app_assoc.
Qed.

(** ** The reader of [JSON.parse] always finishes

    A reader makes progress on [s] when it did not run out of fuel and
    what it leaves to read is shorter than [s]. *)

Lemma skip_ws_length (s : jsstring) :
  (List.length (JSON.skip_ws s) <= List.length s)%nat.
Proof.
  induction s as [|c s IH]; simpl; [lia|].
  destruct (JSON.is_ws c); simpl; lia.
Qed.

Lemma progress_weaken (A : Type) (p : JSON.parsed A) (s s' : jsstring) :
  progress p s' -> (List.length s' <= List.length s)%nat -> progress p s.
Proof. destruct p; simpl; [lia | trivial | trivial]. Qed.

Lemma parse_chars_progress (s acc : jsstring) :
  progress (JSON.parse_chars s acc) s.
Proof.
  remember (List.length s) as n eqn:Hn.
  assert (Hle : (List.length s <= n)%nat) by lia. clear Hn.
  revert s acc Hle.
  induction n as [|n IH]; intros [|c s] acc Hle; simpl in *; trivial; try lia.
  assert (Hstep : forall t a, (List.length t <= List.length s)%nat ->
                    progress (JSON.parse_chars t a) (c :: s)).
  { intros t a Ht. apply progress_weaken with t; [apply IH; lia | simpl; lia]. }
  destruct (N.eqb c c_quote); [simpl; lia|].
  destruct (N.eqb c (ch "\")).
  - destruct s as [|e s1]; [exact I|].
    destruct (N.eqb e (ch "u")).
    + destruct s1 as [|h1 [|h2 [|h3 [|h4 r2]]]]; try exact I.
      destruct (JSON.hex4 h1 h2 h3 h4); [|exact I].
      apply Hstep. simpl. lia.
    + destruct (JSON.simple_escape e); [|exact I].
      apply Hstep. simpl. lia.
  - destruct (N.ltb c 32); [exact I|]. apply Hstep. lia.
Qed.

Lemma span_digits_length (s : jsstring) :
  (List.length (snd (JSON.span_digits s)) + List.length (fst (JSON.span_digits s))
   = List.length s)%nat.
Proof.
  induction s as [|c s IH]; simpl; [reflexivity|].
  destruct (JSON.digit c); [|simpl; lia].
  destruct (JSON.span_digits s) as [ds rest]. simpl in *. lia.
Qed.

Lemma parse_digits_progress (s : jsstring) : progress (JSON.parse_digits s) s.
Proof.
  unfold JSON.parse_digits. pose proof (span_digits_length s) as H.
  destruct (JSON.span_digits s) as [[|d ds] rest]; simpl in *; [trivial | lia].
Qed.

Lemma parse_fraction_length (s : jsstring) :
  match JSON.parse_fraction s with
  | JSON.Parsed _ r => (List.length r <= List.length s)%nat
  | JSON.Malformed => True
  | JSON.OutOfFuel => False
  end.
Proof.
  unfold JSON.parse_fraction. destruct s as [|c r]; [simpl; lia|].
  destruct (N.eqb c (ch ".")); [|simpl; lia].
  pose proof (parse_digits_progress r) as H.
  destruct (JSON.parse_digits r); simpl in *; [lia | trivial | trivial].
Qed.

Lemma parse_exponent_length (s : jsstring) :
  match JSON.parse_exponent s with
  | JSON.Parsed _ r => (List.length r <= List.length s)%nat
  | JSON.Malformed => True
  | JSON.OutOfFuel => False
  end.
Proof.
  unfold JSON.parse_exponent. destruct s as [|c r]; [simpl; lia|].
  destruct (N.eqb c (ch "e") || N.eqb c (ch "E")); [|simpl; lia].
  assert (Hsign : (List.length (snd (JSON.parse_exponent_sign r)) <= List.length r)%nat).
  { unfold JSON.parse_exponent_sign. destruct r as [|g r']; simpl; [lia|].
    destruct (N.eqb g (ch "-")); [simpl; lia|].
    destruct (N.eqb g (ch "+")); simpl; lia. }
  destruct (JSON.parse_exponent_sign r) as [neg r1]. simpl in Hsign.
  pose proof (parse_digits_progress r1) as H.
  destruct (JSON.parse_digits r1); simpl in *; [lia | trivial | trivial].
Qed.

Lemma parse_number_progress (s : jsstring) : progress (JSON.parse_number s) s.
Proof.
  unfold JSON.parse_number.
  assert (Hsign : (List.length (snd (JSON.parse_sign s)) <= List.length s)%nat).
  { unfold JSON.parse_sign. destruct s as [|c r]; simpl; [lia|].
    destruct (N.eqb c (ch "-")); simpl; lia. }
  destruct (JSON.parse_sign s) as [neg s1]. simpl in Hsign.
  pose proof (span_digits_length s1) as Hd.
  destruct (JSON.span_digits s1) as [[|d more] s2]; simpl in Hd; [exact I|].
  destruct (Z.eqb d 0 && negb match more with [] => true | _ => false end);
    [exact I|].
  pose proof (parse_fraction_length s2) as Hf.
  destruct (JSON.parse_fraction s2) as [fs s3| |]; [|exact I|exact Hf].
  pose proof (parse_exponent_length s3) as He.
  destruct (JSON.parse_exponent s3) as [ex s4| |]; [|exact I|exact He].
  simpl. lia.
Qed.

Lemma strip_length (word s r : jsstring) :
  JSON.strip s word = Some r ->
  (List.length r + List.length word = List.length s)%nat.
Proof.
  revert s; induction word as [|w word IH]; intros s; simpl.
  - intros [= ->]. lia.
  - destruct s as [|c s]; [discriminate|].
    destruct (N.eqb w c); [|discriminate].
    intros H. apply IH in H. simpl. lia.
Qed.

Lemma parse_literal_progress (s : jsstring) : progress (JSON.parse_literal s) s.
Proof.
  unfold JSON.parse_literal.
  destruct (JSON.strip s (js "true")) eqn:Et.
  { apply strip_length in Et. simpl in *. lia. }
  destruct (JSON.strip s (js "false")) eqn:Ef.
  { apply strip_length in Ef. simpl in *. lia. }
  destruct (JSON.strip s (js "null")) eqn:En.
  { apply strip_length in En. simpl in *. lia. }
  apply parse_number_progress.
Qed.

Lemma readers_progress (fuel : nat) :
  (forall s, (2 * List.length s + 1 <= fuel)%nat ->
             progress (JSON.parse_value fuel s) s)
  /\ (forall s acc, (2 * List.length s + 2 <= fuel)%nat ->
                    progress (JSON.parse_elements fuel s acc) s)
  /\ (forall s acc, (2 * List.length s + 2 <= fuel)%nat ->
                    progress (JSON.parse_members fuel s acc) s).
Proof.
  induction fuel as [|f (IHv & IHe & IHm)].
  { repeat split; intros; lia. }
  split; [|split].
  - intros s Hf. simpl.
    pose proof (skip_ws_length s) as Hs.
    destruct (JSON.skip_ws s) as [|c r]; [exact I|]. simpl in Hs.
    pose proof (skip_ws_length r) as Hr.
    destruct (N.eqb c (ch "{")); [|destruct (N.eqb c (ch "["))].
    + destruct (JSON.skip_ws r) as [|c' r']; [exact I|]. simpl in Hr.
      destruct (N.eqb c' (ch "}")); [simpl; lia|].
      apply progress_weaken with r; [apply IHm; lia | lia].
    + destruct (JSON.skip_ws r) as [|c' r']; [exact I|]. simpl in Hr.
      destruct (N.eqb c' (ch "]")); [simpl; lia|].
      apply progress_weaken with r; [apply IHe; lia | lia].
    + destruct (N.eqb c c_quote).
      * pose proof (parse_chars_progress r []) as Hc.
        destruct (JSON.parse_chars r []); simpl in *; [lia | trivial | trivial].
      * apply progress_weaken with (c :: r);
          [apply parse_literal_progress | simpl; lia].
  - intros s acc Hf. simpl.
    assert (Hv : progress (JSON.parse_value f s) s) by (apply IHv; lia).
    destruct (JSON.parse_value f s) as [v r| |]; [|exact I|exact Hv].
    simpl in Hv. pose proof (skip_ws_length r) as Hr.
    destruct (JSON.skip_ws r) as [|c r']; [exact I|]. simpl in Hr.
    destruct (N.eqb c (ch ",")).
    + apply progress_weaken with r'; [apply IHe; lia | lia].
    + destruct (N.eqb c (ch "]")); [simpl; lia | exact I].
  - intros s acc Hf. simpl.
    pose proof (skip_ws_length s) as Hs.
    destruct (JSON.skip_ws s) as [|q r]; [exact I|]. simpl in Hs.
    destruct (N.eqb q c_quote); [|exact I].
    pose proof (parse_chars_progress r []) as Hc.
    destruct (JSON.parse_chars r []) as [key r1| |]; [|exact I|exact Hc].
    simpl in Hc. pose proof (skip_ws_length r1) as Hr1.
    destruct (JSON.skip_ws r1) as [|colon r2]; [exact I|]. simpl in Hr1.
    destruct (N.eqb colon (ch ":")); [|exact I].
    assert (Hv : progress (JSON.parse_value f r2) r2) by (apply IHv; lia).
    destruct (JSON.parse_value f r2) as [v r3| |]; [|exact I|exact Hv].
    simpl in Hv. pose proof (skip_ws_length r3) as Hr3.
    destruct (JSON.skip_ws r3) as [|c r4]; [exact I|]. simpl in Hr3.
    destruct (N.eqb c (ch ",")).
    + apply progress_weaken with r4; [apply IHm; lia | lia].
    + destruct (N.eqb c (ch "}")); [simpl; lia | exact I].
Qed.

(** [JSON.parse] gives its reader fuel enough for every text: a
    SyntaxError is never an exhausted reader. *)
Lemma parse_never_out_of_fuel (text : jsstring) :
  JSON.parse_value (JSON.fuel_for text) text <> JSON.OutOfFuel.
Proof.
  intros H.
  pose proof (proj1 (readers_progress (JSON.fuel_for text)) text) as Hp.
  rewrite H in Hp. apply Hp. unfold JSON.fuel_for. lia.
Qed.

(** The members reader returns objects only. *)
Lemma parse_members_object (fuel : nat) :
  forall s acc v r,
    JSON.parse_members fuel s acc = JSON.Parsed v r ->
    exists members, v = JObj members.
Proof.
  induction fuel as [|f IH]; intros s acc v r; simpl; [discriminate|].
  destruct (JSON.skip_ws s) as [|q r0]; [discriminate|].
  destruct (N.eqb q c_quote); [|discriminate].
  destruct (JSON.parse_chars r0 []) as [key r1| |]; try discriminate.
  destruct (JSON.skip_ws r1) as [|colon r2]; [discriminate|].
  destruct (N.eqb colon (ch ":")); [|discriminate].
  destruct (JSON.parse_value f r2) as [w r3| |]; try discriminate.
  destruct (JSON.skip_ws r3) as [|c r4]; [discriminate|].
  destruct (N.eqb c (ch ",")); [apply IH|].
  destruct (N.eqb c (ch "}")); [|discriminate].
  intros [= <- _]. eauto.
Qed.

(** An object is the only value whose text starts with an opening brace,
    so what the normalizer parses is an object. *)
Lemma parse_of_braces_is_object (rest : jsstring) (v : json) :
  JSON.parse (ch "{" :: rest) = Return v -> exists members, v = JObj members.
Proof.
  unfold JSON.parse.
  destruct (JSON.parse_value (JSON.fuel_for (ch "{" :: rest)) (ch "{" :: rest))
    as [w r| |] eqn:E; try discriminate.
  destruct (JSON.skip_ws r); [|discriminate]. intros [= <-].
  unfold JSON.fuel_for in E. simpl in E.
  destruct (JSON.skip_ws rest) as [|c' r']; [discriminate|].
  destruct (N.eqb c' (ch "}")); [injection E as <- _; eauto|].
  eapply parse_members_object. exact E.
Qed.

Lemma parsed_match_is_object (text matched : jsstring) (parsed : json) :
  match_braces text = Some matched ->
  JSON.parse matched = Return parsed ->
  exists members, parsed = JObj members.
Proof.
  intros Hm Hp.
  destruct (match_braces_some _ Hm) as (pre & mid & post & _ & -> & _).
  simpl in Hp. now apply parse_of_braces_is_object in Hp.
Qed.

(** ** C8: the key validators *)

(** C8.  For every string key, the Perplexity validator [isValidAPIKey]
    returns [true] exactly when the key starts with [pplx-], is not the
    placeholder and is longer than 20; the Gemini validator
    [isValidGeminiAPIKey] returns [true] exactly when the key starts with
    [AIza] and is longer than 20.  So [AIzaSyTESTKEY1234567890] is valid,
    and [short] and the Perplexity placeholder are not. *)
Theorem key_validators_characterised (key : jsstring) :
  (Server.isValidAPIKey (Some key) = Some (JBool true)
   <-> (exists rest, key = js "pplx-" ++ rest)
       /\ key <> placeholder /\ (20 < List.length key)%nat)
  /\ (Server.isValidGeminiAPIKey (Some key) = Some (JBool true)
      <-> (exists rest, key = js "AIza" ++ rest) /\ (20 < List.length key)%nat)
  /\ Server.isValidGeminiAPIKey (Some (js "AIzaSyTESTKEY1234567890")) = Some (JBool true)
  /\ Server.isValidGeminiAPIKey (Some (js "short")) = Some (JBool false)
  /\ Server.isValidAPIKey (Some placeholder) = Some (JBool false).
Proof.
  split; [|split; [|repeat split]].
  - unfold Server.isValidAPIKey, and_then.
    rewrite <- startsWith_prefix, <- jsstring_eqb_neq, <- Nat.ltb_lt.
    destruct key as [|c key]; [simpl; intuition discriminate|].
    cbn [truthy].
    destruct (jsstring_eqb (c :: key) placeholder); cbn [negb truthy];
      [intuition discriminate|].
    destruct (startsWith (c :: key) (js "pplx-")); cbn [truthy];
      [|intuition discriminate].
    destruct (20 <? List.length (c :: key))%nat; intuition congruence.
  - unfold Server.isValidGeminiAPIKey, and_then.
    rewrite <- startsWith_prefix, <- Nat.ltb_lt.
    destruct key as [|c key]; [simpl; intuition discriminate|].
    cbn [truthy].
    destruct (startsWith (c :: key) (js "AIza")); cbn [truthy];
      [|intuition discriminate].
    destruct (20 <? List.length (c :: key))%nat; intuition congruence.
Qed.

(** ** C7: the example of an embedded object *)

(** C7.  On the reply text [here you go: {"foodDetected":false,"message":"x"}]
    the normalizer extracts the brace-delimited part, parses it and returns
    the object with [foodDetected] false and [message] ["x"]. *)
Theorem embedded_object_is_extracted :
  let text := jsq "here you go: {'foodDetected':false,'message':'x'}" in
  match_braces text = Some (jsq "{'foodDetected':false,'message':'x'}")
  /\ JSON.parse (jsq "{'foodDetected':false,'message':'x'}") = Return (no_food (js "x"))
  /\ Server.parse_analysis_text (Some (JStr text)) = Return (no_food (js "x"))
  /\ field (no_food (js "x")) "foodDetected" = Some (JBool false)
  /\ field (no_food (js "x")) "message" = Some (JStr (js "x"))
  /\ Server.analyzeWithGemini
       (Some (JStr (js "data:image/jpeg;base64,Zm9v")))
       (Some (js "AIzaSyTESTKEY1234567890"))
       (Response 200
          (jsq "{'candidates':[{'content':{'parts':[{'text':'here you go: {\'foodDetected\':false,\'message\':\'x\'}'}]}}]}"))
     = Return (no_food (js "x"))
  /\ Server.analyzeWithPerplexity
       (Some (JStr (js "data:image/jpeg;base64,Zm9v")))
       (Some (js "pplx-0123456789abcdefghijklmn"))
       (Response 200
          (jsq "{'choices':[{'message':{'content':'here you go: {\'foodDetected\':false,\'message\':\'x\'}'}}]}"))
     = Return (no_food (js "x")).
Proof. vm_compute. repeat split. Qed.

(** ** C1: rating and healthScore of a detected food *)

(** C1, counterexample.  A reply with [foodDetected] true, [rating] 7 and
    [healthScore] 250 is returned with these two values, and so is a
    rating that is a string. *)
Lemma out_of_range_scores_pass_through :
  (let text := jsq "{'foodDetected':true,'rating':7,'healthScore':250}" in
   exists result,
     Server.parse_analysis_text (Some (JStr text)) = Return result
     /\ field result "foodDetected" = Some (JBool true)
     /\ field result "rating" = Some (JNum 7 0)
     /\ absent_or_integer_in 1 5 (field result "rating") = false
     /\ field result "healthScore" = Some (JNum 250 0)
     /\ absent_or_integer_in 0 100 (field result "healthScore") = false)
  /\ (let text := jsq "{'foodDetected':true,'rating':'great'}" in
      exists result,
        Server.parse_analysis_text (Some (JStr text)) = Return result
        /\ field result "rating" = Some (JStr (js "great"))
        /\ absent_or_integer_in 1 5 (field result "rating") = false).
Proof.
  split; cbv zeta; eexists; (split; [vm_compute; reflexivity|]);
    vm_compute; repeat split.
Qed.

(** C1, amended.  When the extracted text parses and its [foodDetected]
    is [true], the normalizer returns the parsed object itself: [rating],
    [healthScore] and every other member are what the provider wrote. *)
Theorem detected_food_is_returned_as_parsed
    (text matched : jsstring) (parsed : json) :
  match_braces text = Some matched ->
  JSON.parse matched = Return parsed ->
  field parsed "foodDetected" = Some (JBool true) ->
  Server.parse_analysis_text (Some (JStr text)) = Return parsed.
Proof.
  intros Hm Hp Hf.
  destruct (parsed_match_is_object _ Hm Hp) as [members ->].
  unfold Server.parse_analysis_text, Server.text_match.
  cbn [bind]. rewrite Hm, Hp. cbn [bind member].
  unfold field in Hf. rewrite Hf. reflexivity.
Qed.

Lemma detected_food_is_returned_as_parsed_witness :
  Server.parse_analysis_text
    (Some (JStr (jsq "Sure! {'foodDetected':true,'rating':7,'healthScore':250} Enjoy.")))
  = Return (JObj [(js "foodDetected", JBool true);
                  (js "rating", JNum 7 0);
                  (js "healthScore", JNum 250 0)]).
Proof.
  apply (@detected_food_is_returned_as_parsed
           (jsq "Sure! {'foodDetected':true,'rating':7,'healthScore':250} Enjoy.")
           (jsq "{'foodDetected':true,'rating':7,'healthScore':250}")).
  - vm_compute. reflexivity.
  - vm_compute. reflexivity.
  - vm_compute. reflexivity.
Defined.

(** ** C6: a parsed object without a boolean [foodDetected] *)

(** C6.  When the extracted text parses but [foodDetected] is missing or
    is neither [true] nor [false], the normalizer returns the
    undetermined result: [foodDetected] false with the message that
    starts [Unable to determine]. *)
Theorem undetermined_without_boolean_flag
    (text matched : jsstring) (parsed : json) :
  match_braces text = Some matched ->
  JSON.parse matched = Return parsed ->
  (forall b, field parsed "foodDetected" <> Some (JBool b)) ->
  Server.parse_analysis_text (Some (JStr text)) = Return Server.undetermined
  /\ field Server.undetermined "foodDetected" = Some (JBool false)
  /\ field Server.undetermined "message"
     = Some (JStr (js "Unable to determine if food is present. Please take a clear photo of food items.")).
Proof.
  intros Hm Hp Hb. split; [|split; reflexivity].
  destruct (parsed_match_is_object _ Hm Hp) as [members ->].
  unfold Server.parse_analysis_text, Server.text_match.
  cbn [bind]. rewrite Hm, Hp. cbn [bind member].
  unfold field in Hb.
  destruct (lookup (js "foodDetected") members) as [[| b | | | |]|];
    try reflexivity.
  now destruct (Hb b).
Qed.

Lemma undetermined_without_boolean_flag_witness :
  Server.parse_analysis_text
    (Some (JStr (jsq "I think so: {'foodDetected':'yes','foodName':'Laksa'}")))
  = Return Server.undetermined
  /\ Server.parse_analysis_text (Some (JStr (jsq "{'foodName':'Laksa'}")))
     = Return Server.undetermined.
Proof.
  split.
  - apply (@undetermined_without_boolean_flag
             (jsq "I think so: {'foodDetected':'yes','foodName':'Laksa'}")
             (jsq "{'foodDetected':'yes','foodName':'Laksa'}")
             (JObj [(js "foodDetected", JStr (js "yes"));
                    (js "foodName", JStr (js "Laksa"))])).
    + vm_compute. reflexivity.
    + vm_compute. reflexivity.
    + intros b. vm_compute. discriminate.
  - apply (@undetermined_without_boolean_flag
             (jsq "{'foodName':'Laksa'}")
             (jsq "{'foodName':'Laksa'}")
             (JObj [(js "foodName", JStr (js "Laksa"))])).
    + vm_compute. reflexivity.
    + vm_compute. reflexivity.
    + intros b. vm_compute. discriminate.
Defined.

(** The normalizer returns a result for every value of the reply's text
    member, a string or not. *)
Lemma parse_analysis_text_returns (analysisText : jsval) :
  exists result, Server.parse_analysis_text analysisText = Return result.
Proof.
  unfold Server.parse_analysis_text, try_catch.
  match goal with |- context [match ?b with Return _ => _ | Throw _ => _ end] =>
    destruct b end; eauto.
Qed.

(** ** C5: a reply that holds no readable object *)

(** C5.  When the reply text has no brace-delimited part, or the part
    extracted from it fails to parse, the normalizer returns (it does not
    throw) an object with [foodDetected] false and a default message:
    [Unable to analyze image. ...] in the first case and
    [Error analyzing image. ...] in the second. *)
Theorem unreadable_reply_is_no_food (text : jsstring) :
  (~ brace_delimited text
   \/ exists matched e,
        match_braces text = Some matched /\ JSON.parse matched = Throw e) ->
  exists message,
    Server.parse_analysis_text (Some (JStr text)) = Return (no_food message)
    /\ field (no_food message) "foodDetected" = Some (JBool false)
    /\ field (no_food message) "message" = Some (JStr message)
    /\ (~ brace_delimited text -> message = unable_to_analyze)
    /\ ((exists matched e,
           match_braces text = Some matched /\ JSON.parse matched = Throw e) ->
        message = error_analyzing).
Proof.
  intros [Hno | (matched & e & Hm & Hp)].
  - exists unable_to_analyze. repeat split.
    + apply match_braces_none in Hno.
      unfold Server.parse_analysis_text, Server.text_match. cbn [bind].
      rewrite Hno. reflexivity.
    + intros (matched & e & Hm & _). apply match_braces_none in Hno. congruence.
  - exists error_analyzing. repeat split.
    + unfold Server.parse_analysis_text, Server.text_match. cbn [bind].
      rewrite Hm, Hp. reflexivity.
    + intros Hno. apply match_braces_none in Hno. congruence.
Qed.

Lemma unreadable_reply_is_no_food_witness :
  (exists message,
     Server.parse_analysis_text (Some (JStr (js "blah blah not json")))
     = Return (no_food message)
     /\ message = unable_to_analyze)
  /\ (exists message,
        Server.parse_analysis_text (Some (JStr (js "it is {foodDetected: maybe}")))
        = Return (no_food message)
        /\ message = error_analyzing).
Proof.
  split.
  - destruct (@unreadable_reply_is_no_food (js "blah blah not json"))
      as (message & H & _ & _ & Hmsg & _).
    + left. apply match_braces_none. vm_compute. reflexivity.
    + exists message. split; [exact H|]. apply Hmsg.
      apply match_braces_none. vm_compute. reflexivity.
  - destruct (@unreadable_reply_is_no_food (js "it is {foodDetected: maybe}"))
      as (message & H & _ & _ & _ & Hmsg).
    + right. exists (js "{foodDetected: maybe}"), SyntaxError.
      split; vm_compute; reflexivity.
    + exists message. split; [exact H|]. apply Hmsg.
      exists (js "{foodDetected: maybe}"), SyntaxError.
      split; vm_compute; reflexivity.
Defined.

(** ** The route [POST /api/analyze] *)

(** C3, counterexample.  With no key in the environment the example
    request is answered with status 400 and the error body, not with status
    200 and a mock result. *)
Lemma unconfigured_gemini_request_is_refused :
  let env := {| Server.PERPLEXITY_API_KEY := None;
                Server.GEMINI_API_KEY := None;
                Server.DEFAULT_AI_PROVIDER := None |} in
  Server.analyze env example_request (FetchRejected [])
  = {| Server.sent := Server.Reply 400 Server.gemini_not_configured;
       Server.invoked := None |}
  /\ Server.status_of (Server.sent (Server.analyze env example_request (FetchRejected [])))
     <> 200%Z
  /\ field Server.gemini_not_configured "foodDetected" = None.
Proof. vm_compute. repeat split. discriminate. Qed.

(** C3, amended.  With body [{imageData: "data:image/jpeg;base64,Zm9v",
    provider: "gemini"}], when the Gemini key of the environment is absent
    or fails [isValidGeminiAPIKey], the route answers with status 400 and
    the body [{error: "Gemini API key not configured", message}], and calls
    no provider. *)
Theorem unconfigured_gemini_request_gets_400
    (env : Server.environment) (reply : fetch_outcome) :
  truthy (Server.isValidGeminiAPIKey (Server.GEMINI_API_KEY env)) = false ->
  Server.analyze env example_request reply
  = {| Server.sent := Server.Reply 400 Server.gemini_not_configured;
       Server.invoked := None |}
  /\ field Server.gemini_not_configured "error"
     = Some (JStr (js "Gemini API key not configured"))
  /\ field Server.gemini_not_configured "message"
     = Some (JStr (js "Please set a valid Gemini API key in environment variables")).
Proof.
  intros Hkey. split; [|split; reflexivity].
  unfold Server.analyze.
  change (Server.destructure example_request)
    with (Return (Some (JStr (js "data:image/jpeg;base64,Zm9v")),
                  Some (JStr (js "gemini")))).
  cbv iota beta.
  change (truthy (Some (JStr (js "data:image/jpeg;base64,Zm9v")))) with true.
  change (is_string (Some (JStr (js "gemini"))) (js "gemini")) with true.
  cbv iota beta. cbn [negb]. rewrite Hkey. reflexivity.
Qed.

Lemma unconfigured_gemini_request_gets_400_witness :
  Server.analyze
    {| Server.PERPLEXITY_API_KEY := None;
       Server.GEMINI_API_KEY := Some (js "short");
       Server.DEFAULT_AI_PROVIDER := None |}
    example_request (Response 200 (js "{}"))
  = {| Server.sent := Server.Reply 400 Server.gemini_not_configured;
       Server.invoked := None |}.
Proof.
  apply (@unconfigured_gemini_request_gets_400
           {| Server.PERPLEXITY_API_KEY := None;
              Server.GEMINI_API_KEY := Some (js "short");
              Server.DEFAULT_AI_PROVIDER := None |}
           (Response 200 (js "{}"))).
  vm_compute. reflexivity.
Defined.

(** C4.  A request whose body has no [imageData] member is answered with
    status 400 and the body [{error, message}], and no provider analysis is
    called. *)
Theorem missing_image_gets_400
    (env : Server.environment) (members : list (jsstring * json))
    (reply : fetch_outcome) :
  lookup (js "imageData") members = None ->
  Server.analyze env (Some (JObj members)) reply
  = {| Server.sent := Server.Reply 400 Server.missing_image;
       Server.invoked := None |}
  /\ Server.status_of (Server.sent (Server.analyze env (Some (JObj members)) reply))
     = 400%Z
  /\ field Server.missing_image "error" = Some (JStr (js "Missing image data"))
  /\ field Server.missing_image "message"
     = Some (JStr (js "Image data is required for analysis")).
Proof.
  intros Hno.
  assert (H : Server.analyze env (Some (JObj members)) reply
              = {| Server.sent := Server.Reply 400 Server.missing_image;
                   Server.invoked := None |}).
  { unfold Server.analyze, Server.destructure, member. cbn [bind].
    rewrite Hno. reflexivity. }
  rewrite H. repeat split.
Qed.

Lemma missing_image_gets_400_witness :
  Server.analyze
    {| Server.PERPLEXITY_API_KEY := Some (js "pplx-0123456789abcdefghijklmn");
       Server.GEMINI_API_KEY := Some (js "AIzaSyTESTKEY1234567890");
       Server.DEFAULT_AI_PROVIDER := None |}
    (Some (JObj [(js "provider", JStr (js "gemini"))]))
    (Response 200 (js "{}"))
  = {| Server.sent := Server.Reply 400 Server.missing_image;
       Server.invoked := None |}.
Proof.
  apply (@missing_image_gets_400
           {| Server.PERPLEXITY_API_KEY := Some (js "pplx-0123456789abcdefghijklmn");
              Server.GEMINI_API_KEY := Some (js "AIzaSyTESTKEY1234567890");
              Server.DEFAULT_AI_PROVIDER := None |}
           [(js "provider", JStr (js "gemini"))]
           (Response 200 (js "{}"))).
  vm_compute. reflexivity.
Defined.

(** C10.  Once [imageData] is there, the request is routed by [provider]
    alone: a missing [provider] (and the string [gemini]) takes the Gemini
    path with [isValidGeminiAPIKey]; every other value, a string or not,
    takes the Perplexity path with [isValidAPIKey]. *)
Theorem provider_routing
    (env : Server.environment) (members : list (jsstring * json))
    (imageData : json) (reply : fetch_outcome) :
  lookup (js "imageData") members = Some imageData ->
  truthy (Some imageData) = true ->
  let gemini_path :=
    if truthy (Server.isValidGeminiAPIKey (Server.GEMINI_API_KEY env))
    then {| Server.sent :=
              Server.send_analysis
                (Server.analyzeWithGemini (Some imageData) (Server.GEMINI_API_KEY env) reply);
            Server.invoked := Some Server.Gemini |}
    else {| Server.sent := Server.Reply 400 Server.gemini_not_configured;
            Server.invoked := None |} in
  let perplexity_path :=
    if truthy (Server.isValidAPIKey (Server.PERPLEXITY_API_KEY env))
    then {| Server.sent :=
              Server.send_analysis
                (Server.analyzeWithPerplexity (Some imageData)
                   (Server.PERPLEXITY_API_KEY env) reply);
            Server.invoked := Some Server.Perplexity |}
    else {| Server.sent := Server.Reply 400 Server.perplexity_not_configured;
            Server.invoked := None |} in
  (lookup (js "provider") members = None ->
   Server.analyze env (Some (JObj members)) reply = gemini_path)
  /\ (lookup (js "provider") members = Some (JStr (js "gemini")) ->
      Server.analyze env (Some (JObj members)) reply = gemini_path)
  /\ (forall provider,
        lookup (js "provider") members = Some provider ->
        provider <> JStr (js "gemini") ->
        Server.analyze env (Some (JObj members)) reply = perplexity_path).
Proof.
  intros Himg Htruthy gemini_path perplexity_path.
  unfold Server.analyze, Server.destructure, member. cbn [bind].
  rewrite Himg. rewrite Htruthy. cbn [negb].
  repeat split.
  - intros ->. subst gemini_path.
    change (is_string (Some (JStr (js "gemini"))) (js "gemini")) with true.
    cbv iota.
    now destruct (truthy (Server.isValidGeminiAPIKey (Server.GEMINI_API_KEY env))).
  - intros ->. subst gemini_path.
    change (is_string (Some (JStr (js "gemini"))) (js "gemini")) with true.
    cbv iota.
    now destruct (truthy (Server.isValidGeminiAPIKey (Server.GEMINI_API_KEY env))).
  - intros provider -> Hother. subst perplexity_path.
    assert (E : is_string (Some provider) (js "gemini") = false).
    { destruct provider; try reflexivity. simpl.
      apply jsstring_eqb_neq. congruence. }
    rewrite E.
    now destruct (truthy (Server.isValidAPIKey (Server.PERPLEXITY_API_KEY env))).
Qed.

Lemma provider_routing_witness :
  let env := {| Server.PERPLEXITY_API_KEY := Some (js "pplx-0123456789abcdefghijklmn");
                Server.GEMINI_API_KEY := None;
                Server.DEFAULT_AI_PROVIDER := None |} in
  let members := [(js "imageData", JStr (js "data:image/jpeg;base64,Zm9v"));
                  (js "provider", JStr (js "openai"))] in
  Server.invoked (Server.analyze env (Some (JObj members)) (FetchRejected (js "offline")))
  = Some Server.Perplexity.
Proof.
  cbv zeta.
  rewrite (proj2 (proj2
    (@provider_routing
       {| Server.PERPLEXITY_API_KEY := Some (js "pplx-0123456789abcdefghijklmn");
          Server.GEMINI_API_KEY := None;
          Server.DEFAULT_AI_PROVIDER := None |}
       [(js "imageData", JStr (js "data:image/jpeg;base64,Zm9v"));
        (js "provider", JStr (js "openai"))]
       (JStr (js "data:image/jpeg;base64,Zm9v"))
       (FetchRejected (js "offline"))
       ltac:(vm_compute; reflexivity)
       ltac:(vm_compute; reflexivity)))
    (JStr (js "openai"))
    ltac:(vm_compute; reflexivity)
    ltac:(vm_compute; discriminate)).
  vm_compute. reflexivity.
Defined.

(** ** The mock generator *)


Lemma index_in_catalog (draw : Q) :
  is_draw draw -> (0 <= Qfloor (to_double (draw * inject_Z 3)) < 3)%Z.
Proof.
  intros [Hlo Hhi]. change (inject_Z 3) with 3.
  assert (H0 : 0 <= draw * 3) by lra.
  assert (H4 : draw * 3 < 4) by lra.
  split.
  - change 0%Z with (Qfloor 0). apply Qfloor_resp_le.
    now apply (to_double_reaches (i := 0)).
  - rewrite Zlt_Qlt.
    apply Qle_lt_trans with (to_double (draw * 3)); [apply Qfloor_le|].
    pose proof (to_double_above H0 H4). change (inject_Z 3) with 3. lra.
Qed.

Lemma mock_is_catalog_or_no_food (draw1 draw2 : Q) :
  is_draw draw2 ->
  App.getMockAnalysisResult draw1 draw2 = Some App.no_food_detected
  \/ exists dish, In dish App.mockData
                  /\ App.getMockAnalysisResult draw1 draw2 = Some dish.
Proof.
  intros Hdraw. unfold App.getMockAnalysisResult.
  destruct (Qle_bool draw1 (to_double (7 # 10))); cbn [negb]; [now left|]. right.
  change (inject_Z (Z.of_nat (List.length App.mockData))) with (inject_Z 3).
  pose proof (index_in_catalog Hdraw) as Hk.
  unfold App.at_index.
  destruct (Qfloor (to_double (draw2 * inject_Z 3))) as [|k|k] eqn:E; try lia.
  - eexists. split; [|reflexivity]. simpl. auto.
  - assert (Hc : k = 1%positive \/ k = 2%positive) by lia.
    destruct Hc as [-> | ->]; (eexists; split; [|reflexivity]); simpl; auto.
Qed.




(** ** The client orchestrator *)

Lemma member_of_truthy (config : json) (k : jsstring) :
  truthy (Some config) = true -> exists v, member (Some config) k = Return v.
Proof.
  destruct config; simpl; try discriminate; eauto.
Qed.

Lemma configured_key_never_throws (config : json) :
  truthy (Some config) = true ->
  keys_are_strings config ->
  exists valid, App.configured_key_is_valid config = Return valid.
Proof.
  intros Ht Hkeys. unfold App.configured_key_is_valid, App.provider_of.
  destruct (@member_of_truthy config (js "defaultProvider") Ht) as [dp ->]. cbn [bind].
  set (provider := if truthy dp then dp else Some (JStr (js "gemini"))).
  assert (Hkey : exists apiKey,
             App.apiKey_of config provider = Return apiKey
             /\ (forall v, apiKey = Some v -> exists key, v = JStr key)).
  { unfold App.apiKey_of. destruct (is_string provider (js "gemini")).
    - destruct (@member_of_truthy config (js "geminiApiKey") Ht) as [v Hv].
      exists v. split; [exact Hv|]. intros w ->.
      apply (Hkeys (js "geminiApiKey")); auto.
    - destruct (@member_of_truthy config (js "perplexityApiKey") Ht) as [v Hv].
      exists v. split; [exact Hv|]. intros w ->.
      apply (Hkeys (js "perplexityApiKey")); auto. }
  destruct Hkey as (apiKey & -> & Hstr). cbn [bind].
  unfold App.isValidAPIKey.
  destruct (truthy apiKey) eqn:Ek; cbn [negb]; [|eauto].
  destruct apiKey as [v|]; [|discriminate].
  destruct (Hstr v eq_refl) as [key ->].
  destruct (is_string _ _); eauto.
Qed.

(** The orchestrator chooses the provider, checks the key, prints the
    provider and only then falls back or calls the server. *)
Lemma orchestrator_steps
    (config_reply : fetch_outcome) (imageData : jsstring)
    (reply : fetch_outcome) (draw1 draw2 : Q)
    (provider : jsval) (valid : bool) :
  let config := App.getAPIConfigFromServer config_reply in
  truthy (Some config) = true ->
  App.provider_of config = Return provider ->
  App.configured_key_is_valid config = Return valid ->
  App.analyzeImageWithAI config_reply imageData reply draw1 draw2
  = match interpolate provider with
    | Throw e => {| App.shown := None; App.settled := Throw e |}
    | Return _ =>
        if valid
        then match App.request_analysis reply with
             | Return analysisData =>
                 {| App.shown := None; App.settled := Return analysisData |}
             | Throw _ =>
                 {| App.shown := Some App.ApiError;
                    App.settled := Return (App.getMockAnalysisResult draw1 draw2) |}
             end
        else {| App.shown := Some App.DemoModeNoKey;
                App.settled := Return (App.getMockAnalysisResult draw1 draw2) |}
    end.
Proof.
  cbv zeta. intros Ht Hprov Hvalid.
  unfold App.analyzeImageWithAI. rewrite Ht. cbn [negb]. rewrite Hprov.
  unfold App.configured_key_is_valid in Hvalid. rewrite Hprov in Hvalid.
  cbn [bind] in Hvalid. rewrite Hvalid.
  destruct valid; now destruct (interpolate provider).
Qed.

Lemma provider_is_printed (config : json) (provider : jsval) :
  provider_converts config ->
  App.provider_of config = Return provider ->
  interpolate provider = Return tt.
Proof.
  intros Hconv Hprov. unfold App.provider_of in Hprov.
  destruct (member (Some config) (js "defaultProvider")) as [dp|e] eqn:Hd;
    cbn [bind] in Hprov; [|discriminate].
  injection Hprov as <-.
  destruct (truthy dp); [|reflexivity].
  destruct dp as [p|]; [|reflexivity].
  unfold interpolate. now rewrite (Hconv p Hd).
Qed.

(** The orchestrator settles with a result, and with the mock result on
    each of its two fallback paths. *)
Lemma orchestrator_settles
    (config_reply : fetch_outcome) (imageData : jsstring)
    (reply : fetch_outcome) (draw1 draw2 : Q) :
  is_draw draw2 ->
  keys_are_strings (App.getAPIConfigFromServer config_reply) ->
  provider_converts (App.getAPIConfigFromServer config_reply) ->
  let run := App.analyzeImageWithAI config_reply imageData reply draw1 draw2 in
  let config := App.getAPIConfigFromServer config_reply in
  (exists analysisResult, App.settled run = Return (Some analysisResult))
  /\ (truthy (Some config) = true ->
      App.configured_key_is_valid config = Return false ->
      App.settled run = Return (App.getMockAnalysisResult draw1 draw2))
  /\ (call_failed reply ->
      App.settled run = Return (App.getMockAnalysisResult draw1 draw2)).
Proof.
  intros Hdraw Hkeys Hconv run config.
  assert (Hmock : exists r, App.getMockAnalysisResult draw1 draw2 = Some r).
  { destruct (mock_is_catalog_or_no_food draw1 Hdraw) as [H | (d & _ & H)];
      rewrite H; eauto. }
  destruct Hmock as [mock Hmock].
  destruct (truthy (Some config)) eqn:Ht.
  2:{ subst run. unfold App.analyzeImageWithAI. fold config. rewrite Ht.
      cbn [negb App.settled]. rewrite Hmock. repeat split; eauto. }
  destruct (@configured_key_never_throws config Ht Hkeys) as [valid Hvalid].
  assert (Hprov : exists provider, App.provider_of config = Return provider).
  { unfold App.configured_key_is_valid in Hvalid.
    destruct (App.provider_of config); [eauto | discriminate]. }
  destruct Hprov as [provider Hprov].
  subst run.
  rewrite (@orchestrator_steps config_reply imageData reply draw1 draw2
             provider valid Ht Hprov Hvalid).
  rewrite (provider_is_printed Hconv Hprov).
  destruct valid.
  - assert (Hcall : (exists v, App.request_analysis reply = Return (Some v))
                    \/ (exists e, App.request_analysis reply = Throw e)).
    { unfold App.request_analysis. destruct reply as [m | status text]; [eauto|].
      destruct (ok status); cbn [negb]; [|eauto].
      destruct (JSON.parse text); cbn [bind]; eauto. }
    split; [|split].
    + destruct Hcall as [[v ->] | [e ->]]; cbn [App.settled]; [eauto|].
      rewrite Hmock. eauto.
    + intros _ H. fold config in Hvalid. congruence.
    + intros Hfail. unfold App.request_analysis.
      destruct reply as [m | status text]; [reflexivity|].
      simpl in Hfail. rewrite Hfail. reflexivity.
  - cbn [App.settled]. rewrite Hmock. repeat split; eauto.
Qed.

(** C2, counterexample.  With a configuration whose Gemini key is a
    number, and with one whose [defaultProvider] is an object with a
    member [toString], [analyzeImageWithAI] rejects with a TypeError. *)
Lemma ill_typed_configuration_is_rejected :
  App.settled
    (App.analyzeImageWithAI
       (Response 200 (jsq "{'geminiApiKey':12345}"))
       (js "data:image/jpeg;base64,Zm9v")
       (Response 200 (jsq "{'foodDetected':false}"))
       (1 # 2) (1 # 2))
  = Throw TypeError
  /\ App.settled
       (App.analyzeImageWithAI
          (Response 200 (jsq "{'defaultProvider':{'toString':1}}"))
          (js "data:image/jpeg;base64,Zm9v")
          (Response 200 (jsq "{'foodDetected':false}"))
          (1 # 2) (1 # 2))
     = Throw TypeError.
Proof. split; vm_compute; reflexivity. Qed.

(** C2, amended.  With a configuration whose key members are strings when
    present and whose [defaultProvider], when present, converts to a
    string, as in what [/api/config] of [server.js] serves,
    [analyzeImageWithAI] settles by returning a result for every image: it
    never throws.  When the key of the chosen provider is absent or fails
    validation the result is the mock generator's, and so it is when the
    call of [/api/analyze] throws or is answered outside [200..299]. *)
Theorem analyzeImageWithAI_always_resolves
    (config_reply : fetch_outcome) (imageData : jsstring)
    (reply : fetch_outcome) (draw1 draw2 : Q) :
  is_draw draw2 ->
  keys_are_strings (App.getAPIConfigFromServer config_reply) ->
  provider_converts (App.getAPIConfigFromServer config_reply) ->
  let run := App.analyzeImageWithAI config_reply imageData reply draw1 draw2 in
  let config := App.getAPIConfigFromServer config_reply in
  (exists analysisResult, App.settled run = Return (Some analysisResult))
  /\ (truthy (Some config) = true ->
      App.configured_key_is_valid config = Return false ->
      App.settled run = Return (App.getMockAnalysisResult draw1 draw2))
  /\ (call_failed reply ->
      App.settled run = Return (App.getMockAnalysisResult draw1 draw2)).
Proof.
  intros Hdraw Hkeys Hconv. now apply orchestrator_settles.
Qed.

Lemma analyzeImageWithAI_always_resolves_witness :
  App.settled
    (App.analyzeImageWithAI
       (Response 200 (jsq "{'geminiApiKey':'AIzaSyTESTKEY1234567890','defaultProvider':'gemini'}"))
       (js "data:image/jpeg;base64,Zm9v")
       (Response 503 (js "Service Unavailable"))
       (1 # 2) (1 # 2))
  = Return (Some App.no_food_detected).
Proof.
  rewrite (proj2 (proj2
    (@analyzeImageWithAI_always_resolves
       (Response 200 (jsq "{'geminiApiKey':'AIzaSyTESTKEY1234567890','defaultProvider':'gemini'}"))
       (js "data:image/jpeg;base64,Zm9v")
       (Response 503 (js "Service Unavailable"))
       (1 # 2) (1 # 2)
       ltac:(split; discriminate)
       ltac:(intros k v [-> | ->] H; vm_compute in H;
             [injection H as <-; eexists; reflexivity | discriminate H])
       ltac:(intros p H; vm_compute in H; injection H as <-; reflexivity)))).
  - vm_compute. reflexivity.
  - vm_compute. reflexivity.
Defined.

(** What [/api/config] sends has string keys, whatever the environment. *)
Lemma server_config_keys_are_strings (env : Server.environment) :
  keys_are_strings (Server.config env).
Proof.
  intros k v Hk H. unfold Server.config, member in H.
  destruct (Server.PERPLEXITY_API_KEY env) as [pk|],
           (Server.GEMINI_API_KEY env) as [gk|];
    destruct Hk as [-> | ->]; vm_compute in H;
    try discriminate H; injection H as <-; eauto.
Qed.

(** Its [defaultProvider] is a string, which converts. *)
Lemma server_config_provider_converts (env : Server.environment) :
  provider_converts (Server.config env).
Proof.
  intros p H. unfold Server.config, member in H.
  destruct (Server.PERPLEXITY_API_KEY env) as [pk|],
           (Server.GEMINI_API_KEY env) as [gk|];
    vm_compute in H; injection H as <-; reflexivity.
Qed.

(** The client never throws on a configuration served by [server.js]. *)
Lemma client_resolves_on_server_config
    (env : Server.environment) (config_reply : fetch_outcome)
    (imageData : jsstring) (reply : fetch_outcome) (draw1 draw2 : Q) :
  is_draw draw2 ->
  App.getAPIConfigFromServer config_reply = Server.config env ->
  exists analysisResult,
    App.settled (App.analyzeImageWithAI config_reply imageData reply draw1 draw2)
    = Return (Some analysisResult).
Proof.
  intros Hdraw Hconfig.
  apply orchestrator_settles; [exact Hdraw | |]; rewrite Hconfig.
  - apply server_config_keys_are_strings.
  - apply server_config_provider_converts.
Qed.

(** * Further properties of the code *)

(** ** Substrings *)

Lemma includes_substring (s sub : jsstring) :
  includes s sub = true <-> exists pre post, s = pre ++ sub ++ post.
Proof.
  split.
  - induction s as [|c s IH]; simpl; rewrite orb_true_iff.
    + intros [H | H]; [|discriminate].
      apply startsWith_prefix in H as [post ->]. now exists [], post.
    + intros [H | H].
      * apply startsWith_prefix in H as [post ->]. now exists [], post.
      * destruct (IH H) as (pre & post & ->). now exists (c :: pre), post.
  - intros (pre & post & ->). induction pre as [|c pre IH].
    + simpl app.
      assert (H : startsWith (sub ++ post) sub = true)
        by (apply startsWith_prefix; now exists post).
      destruct (sub ++ post); simpl; rewrite H; reflexivity.
    + simpl. rewrite IH. apply orb_true_r.
Qed.

(** ** The key checks of the client and of the server *)

Lemma and_then_bool (s : jsstring) (b : bool) :
  truthy (and_then (Some (JStr s)) (Some (JBool b)))
  = match s with [] => false | _ :: _ => b end.
Proof. destruct s; reflexivity. Qed.

Lemma server_gemini_check (key : jsstring) :
  truthy (Server.isValidGeminiAPIKey (Some key))
  = startsWith key (js "AIza") && (20 <? List.length key)%nat.
Proof.
  unfold Server.isValidGeminiAPIKey, and_then.
  destruct key as [|c key]; [reflexivity|]. cbn [truthy].
  destruct (startsWith (c :: key) (js "AIza")); reflexivity.
Qed.

Lemma server_perplexity_check (key : jsstring) :
  truthy (Server.isValidAPIKey (Some key))
  = negb (jsstring_eqb key placeholder)
    && startsWith key (js "pplx-") && (20 <? List.length key)%nat.
Proof.
  unfold Server.isValidAPIKey, and_then.
  destruct key as [|c key]; [reflexivity|]. cbn [truthy].
  destruct (jsstring_eqb (c :: key) placeholder); cbn [negb truthy];
    [reflexivity|].
  destruct (startsWith (c :: key) (js "pplx-")); reflexivity.
Qed.

Lemma client_check_of_string (key : jsstring) (provider : jsval) :
  App.isValidAPIKey (Some (JStr key)) provider
  = Return (if is_string (match provider with
                          | None => Some (JStr (js "gemini"))
                          | Some _ => provider
                          end) (js "gemini")
            then truthy (Server.isValidGeminiAPIKey (Some key))
            else truthy (Server.isValidAPIKey (Some key))).
Proof.
  rewrite server_gemini_check, server_perplexity_check.
  unfold App.isValidAPIKey.
  destruct key as [|c key].
  - cbn [truthy negb]. now destruct (is_string _ _).
  - cbn [truthy negb]. now destruct (is_string _ _).
Qed.

(** X1.  The client's [isValidAPIKey] and the server's two validators
    agree on every key: for the provider [gemini], or none given, the
    client accepts exactly what [isValidGeminiAPIKey] accepts, for every
    other provider exactly what the server's [isValidAPIKey] accepts; an
    absent key is refused by all of them. *)
Theorem client_and_server_validators_agree
    (key : option jsstring) (provider : jsval) :
  ((provider = None \/ provider = Some (JStr (js "gemini"))) ->
   App.isValidAPIKey (option_map JStr key) provider
   = Return (truthy (Server.isValidGeminiAPIKey key)))
  /\ (forall p, provider = Some p -> p <> JStr (js "gemini") ->
      App.isValidAPIKey (option_map JStr key) provider
      = Return (truthy (Server.isValidAPIKey key))).
Proof.
  split.
  - intros Hp. destruct key as [k|]; cbn [option_map].
    + rewrite client_check_of_string. destruct Hp as [-> | ->]; reflexivity.
    + reflexivity.
  - intros p -> Hp. destruct key as [k|]; cbn [option_map].
    + rewrite client_check_of_string.
      assert (E : is_string (Some p) (js "gemini") = false).
      { destruct p; try reflexivity. simpl. apply jsstring_eqb_neq. congruence. }
      now rewrite E.
    + reflexivity.
Qed.

Lemma client_and_server_validators_agree_witness :
  App.isValidAPIKey (Some (JStr (js "pplx-0123456789abcdefghijklmn"))) None
  = Return false
  /\ App.isValidAPIKey (Some (JStr (js "pplx-0123456789abcdefghijklmn")))
       (Some (JStr (js "perplexity")))
     = Return true.
Proof.
  split.
  - pose proof (proj1 (@client_and_server_validators_agree
                         (Some (js "pplx-0123456789abcdefghijklmn")) None)
                  (or_introl eq_refl)) as H.
    cbn [option_map] in H. rewrite H. vm_compute. reflexivity.
  - pose proof (proj2 (@client_and_server_validators_agree
                         (Some (js "pplx-0123456789abcdefghijklmn"))
                         (Some (JStr (js "perplexity"))))
                  (JStr (js "perplexity")) eq_refl
                  ltac:(vm_compute; discriminate)) as H.
    cbn [option_map] in H. rewrite H. vm_compute. reflexivity.
Defined.

(** The provider the environment selects: [DEFAULT_AI_PROVIDER] when it
    is set and not empty, [gemini] otherwise. *)
Lemma provider_of_server_config (env : Server.environment) :
  App.provider_of (Server.config env)
  = Return (Some (JStr match Server.DEFAULT_AI_PROVIDER env with
                       | Some (c :: p) => c :: p
                       | _ => js "gemini"
                       end)).
Proof.
  unfold App.provider_of, Server.config, member.
  destruct (Server.PERPLEXITY_API_KEY env), (Server.GEMINI_API_KEY env),
    (Server.DEFAULT_AI_PROVIDER env) as [[|c p]|]; reflexivity.
Qed.

Lemma keys_of_server_config (env : Server.environment) :
  member (Some (Server.config env)) (js "geminiApiKey")
  = Return (option_map JStr (Server.GEMINI_API_KEY env))
  /\ member (Some (Server.config env)) (js "perplexityApiKey")
     = Return (option_map JStr (Server.PERPLEXITY_API_KEY env)).
Proof.
  unfold Server.config, member.
  destruct (Server.PERPLEXITY_API_KEY env), (Server.GEMINI_API_KEY env);
    split; reflexivity.
Qed.

Lemma client_check_on_server_config (env : Server.environment) :
  App.configured_key_is_valid (Server.config env)
  = Return
      (if jsstring_eqb match Server.DEFAULT_AI_PROVIDER env with
                       | Some (c :: p) => c :: p
                       | _ => js "gemini"
                       end (js "gemini")
       then truthy (Server.isValidGeminiAPIKey (Server.GEMINI_API_KEY env))
       else truthy (Server.isValidAPIKey (Server.PERPLEXITY_API_KEY env))).
Proof.
  unfold App.configured_key_is_valid. rewrite provider_of_server_config.
  cbn [bind]. unfold App.apiKey_of. cbn [is_string].
  destruct (keys_of_server_config env) as [Hg Hp].
  destruct (jsstring_eqb _ (js "gemini")) eqn:E.
  - rewrite Hg. cbn [bind].
    destruct (Server.GEMINI_API_KEY env) as [k|]; cbn [option_map];
      [|reflexivity].
    rewrite client_check_of_string. cbn [is_string]. now rewrite E.
  - rewrite Hp. cbn [bind].
    destruct (Server.PERPLEXITY_API_KEY env) as [k|]; cbn [option_map];
      [|reflexivity].
    rewrite client_check_of_string. cbn [is_string]. now rewrite E.
Qed.

(** X2.  On what [/api/config] serves, the client chooses the provider
    [DEFAULT_AI_PROVIDER] (or [gemini] when that is unset or empty) and its
    key check gives exactly the verdict of the server's validator for that
    provider on the key of the environment. *)
Theorem client_decision_on_served_config (env : Server.environment) :
  let provider :=
    match Server.DEFAULT_AI_PROVIDER env with
    | Some (c :: p) => c :: p
    | _ => js "gemini"
    end in
  App.provider_of (Server.config env) = Return (Some (JStr provider))
  /\ App.configured_key_is_valid (Server.config env)
     = Return
         (if jsstring_eqb provider (js "gemini")
          then truthy (Server.isValidGeminiAPIKey (Server.GEMINI_API_KEY env))
          else truthy (Server.isValidAPIKey (Server.PERPLEXITY_API_KEY env))).
Proof.
  split; [apply provider_of_server_config | apply client_check_on_server_config].
Qed.

Lemma analyze_of_client_request
    (env : Server.environment) (imageData provider : jsstring)
    (reply : fetch_outcome) :
  imageData <> [] ->
  Server.analyze env (App.analyze_request imageData (Some (JStr provider))) reply
  = if jsstring_eqb provider (js "gemini")
    then if truthy (Server.isValidGeminiAPIKey (Server.GEMINI_API_KEY env))
         then {| Server.sent :=
                   Server.send_analysis
                     (Server.analyzeWithGemini (Some (JStr imageData))
                        (Server.GEMINI_API_KEY env) reply);
                 Server.invoked := Some Server.Gemini |}
         else {| Server.sent := Server.Reply 400 Server.gemini_not_configured;
                 Server.invoked := None |}
    else if truthy (Server.isValidAPIKey (Server.PERPLEXITY_API_KEY env))
         then {| Server.sent :=
                   Server.send_analysis
                     (Server.analyzeWithPerplexity (Some (JStr imageData))
                        (Server.PERPLEXITY_API_KEY env) reply);
                 Server.invoked := Some Server.Perplexity |}
         else {| Server.sent := Server.Reply 400 Server.perplexity_not_configured;
                 Server.invoked := None |}.
Proof.
  intros Himg. unfold Server.analyze, App.analyze_request.
  change (Server.destructure
            (Some (JObj [(js "imageData", JStr imageData);
                         (js "provider", JStr provider)])))
    with (Return (Some (JStr imageData), Some (JStr provider))).
  cbv iota beta.
  destruct imageData as [|c img]; [congruence|]. cbn [truthy negb is_string].
  destruct (jsstring_eqb provider (js "gemini")).
  - now destruct (truthy (Server.isValidGeminiAPIKey _)).
  - now destruct (truthy (Server.isValidAPIKey _)).
Qed.

(** X3.  When the client, on the served configuration, finds its key
    valid and sends its request with a non-empty image, the server calls
    the same provider the client chose and never answers 400: the two
    [not configured] answers cannot reach this client. *)
Theorem approved_request_reaches_the_provider
    (env : Server.environment) (imageData : jsstring) (reply : fetch_outcome)
    (provider : jsval) :
  imageData <> [] ->
  App.provider_of (Server.config env) = Return provider ->
  App.configured_key_is_valid (Server.config env) = Return true ->
  let handled := Server.analyze env (App.analyze_request imageData provider) reply in
  Server.invoked handled
  = Some (if is_string provider (js "gemini") then Server.Gemini else Server.Perplexity)
  /\ Server.status_of (Server.sent handled) <> 400%Z.
Proof.
  intros Himg Hprov Hvalid handled. subst handled.
  rewrite provider_of_server_config in Hprov. injection Hprov as <-.
  rewrite client_check_on_server_config in Hvalid. injection Hvalid as Hvalid.
  rewrite analyze_of_client_request by exact Himg. cbn [is_string].
  destruct (jsstring_eqb _ (js "gemini")); rewrite Hvalid; cbn [Server.invoked Server.sent];
    (split; [reflexivity|]);
    match goal with
    | |- context [Server.send_analysis ?r] => destruct r; simpl; discriminate
    end.
Qed.

Lemma approved_request_reaches_the_provider_witness :
  let env := {| Server.PERPLEXITY_API_KEY := Some (js "pplx-0123456789abcdefghijklmn");
                Server.GEMINI_API_KEY := None;
                Server.DEFAULT_AI_PROVIDER := Some (js "perplexity") |} in
  Server.invoked
    (Server.analyze env
       (App.analyze_request (js "data:image/jpeg;base64,Zm9v")
          (Some (JStr (js "perplexity"))))
       (FetchRejected (js "offline")))
  = Some Server.Perplexity.
Proof.
  cbv zeta.
  apply (proj1 (@approved_request_reaches_the_provider
          {| Server.PERPLEXITY_API_KEY := Some (js "pplx-0123456789abcdefghijklmn");
             Server.GEMINI_API_KEY := None;
             Server.DEFAULT_AI_PROVIDER := Some (js "perplexity") |}
          (js "data:image/jpeg;base64,Zm9v")
          (FetchRejected (js "offline"))
          (Some (JStr (js "perplexity")))
          ltac:(vm_compute; discriminate)
          ltac:(vm_compute; reflexivity)
          ltac:(vm_compute; reflexivity))).
Defined.

(** ** The extraction and the normalizer *)

Lemma from_first_open_skips (pre s : jsstring) :
  ~ In (ch "{") pre -> from_first_open (pre ++ s) = from_first_open s.
Proof.
  induction pre as [|c pre IH]; intros Hpre; [reflexivity|]. simpl.
  destruct (N.eqb c (ch "{")) eqn:E.
  - apply N.eqb_eq in E. destruct Hpre. now left.
  - apply IH. intros H. apply Hpre. now right.
Qed.

Lemma upto_last_close_none (s : jsstring) :
  ~ In (ch "}") s -> upto_last_close s = None.
Proof.
  induction s as [|c s IH]; intros Hs; [reflexivity|]. simpl.
  rewrite IH by (intros H; apply Hs; now right).
  destruct (N.eqb c (ch "}")) eqn:E; [|reflexivity].
  apply N.eqb_eq in E. destruct Hs. now left.
Qed.

Lemma upto_last_close_ignores (s post : jsstring) :
  ~ In (ch "}") post -> upto_last_close (s ++ post) = upto_last_close s.
Proof.
  intros Hpost. induction s as [|c s IH]; simpl.
  - now apply upto_last_close_none.
  - now rewrite IH.
Qed.

Lemma upto_last_close_whole (mid : jsstring) :
  upto_last_close (mid ++ [ch "}"]) = Some (mid ++ [ch "}"]).
Proof.
  induction mid as [|c mid IH]; [reflexivity|]. simpl app.
  change (upto_last_close (c :: mid ++ [ch "}"]))
    with (match upto_last_close (mid ++ [ch "}"]) with
          | Some t => Some (c :: t)
          | None => if N.eqb c (ch "}") then Some [c] else None
          end).
  now rewrite IH.
Qed.

Lemma from_first_open_append (s post : jsstring) :
  from_first_open (s ++ post)
  = match from_first_open s with
    | Some t => Some (t ++ post)
    | None => from_first_open post
    end.
Proof.
  induction s as [|c s IH]; simpl.
  - now destruct (from_first_open post).
  - destruct (N.eqb c (ch "{")); [reflexivity | exact IH].
Qed.

Lemma from_first_open_head (s t : jsstring) :
  from_first_open s = Some t -> exists rest, t = ch "{" :: rest.
Proof.
  intros H. destruct (from_first_open_some _ H) as (pre & rest & _ & -> & _).
  now exists rest.
Qed.

(** Prose before the first opening brace and after the last closing brace
    does not change what is extracted. *)
Lemma match_braces_padding (pre text post : jsstring) :
  ~ In (ch "{") pre -> ~ In (ch "}") post ->
  match_braces (pre ++ text ++ post) = match_braces text.
Proof.
  intros Hpre Hpost. unfold match_braces.
  rewrite from_first_open_skips by exact Hpre.
  rewrite from_first_open_append.
  destruct (from_first_open text) as [t|] eqn:Et.
  - destruct (from_first_open_head _ Et) as [rest ->]. cbn [app].
    now rewrite upto_last_close_ignores by exact Hpost.
  - destruct (from_first_open post) as [t|] eqn:Ep; [|reflexivity].
    destruct (from_first_open_some _ Ep) as (p1 & rest & Hsplit & -> & _).
    rewrite upto_last_close_none; [reflexivity|].
    intros Hin. apply Hpost. rewrite Hsplit.
    apply in_or_app. right. now right.
Qed.

Lemma match_braces_whole (mid : jsstring) :
  match_braces ([ch "{"] ++ mid ++ [ch "}"]) = Some ([ch "{"] ++ mid ++ [ch "}"]).
Proof.
  unfold match_braces. simpl. now rewrite upto_last_close_whole.
Qed.

(** X4.  The extracted text is exactly the part of the reply from its
    first opening brace to its last closing brace: nothing before it is an
    opening brace and nothing after it is a closing brace, and every such
    part is the one extracted. *)
Theorem extraction_is_first_open_to_last_close (text matched : jsstring) :
  match_braces text = Some matched
  <-> exists pre mid post,
        text = pre ++ matched ++ post
        /\ matched = [ch "{"] ++ mid ++ [ch "}"]
        /\ ~ In (ch "{") pre /\ ~ In (ch "}") post.
Proof.
  split; [apply match_braces_some|].
  intros (pre & mid & post & -> & -> & Hpre & Hpost).
  rewrite match_braces_padding by assumption. apply match_braces_whole.
Qed.

(** X5.  The normalizer looks at the extracted part only: on a reply and
    on the part extracted from it, it returns the same result. *)
Theorem normalizer_reads_the_match_only (text matched : jsstring) :
  match_braces text = Some matched ->
  Server.parse_analysis_text (Some (JStr text))
  = Server.parse_analysis_text (Some (JStr matched)).
Proof.
  intros Hm.
  assert (Hself : match_braces matched = Some matched).
  { destruct (match_braces_some _ Hm) as (pre & mid & post & _ & -> & _).
    apply match_braces_whole. }
  unfold Server.parse_analysis_text, Server.text_match.
  now rewrite Hm, Hself.
Qed.

Lemma normalizer_reads_the_match_only_witness :
  Server.parse_analysis_text
    (Some (JStr (jsq "} first, then {'foodDetected':false,'message':'m'} and { more")))
  = Server.parse_analysis_text
      (Some (JStr (jsq "{'foodDetected':false,'message':'m'}"))).
Proof.
  apply (@normalizer_reads_the_match_only
           (jsq "} first, then {'foodDetected':false,'message':'m'} and { more")
           (jsq "{'foodDetected':false,'message':'m'}")).
  vm_compute. reflexivity.
Defined.

(** X6.  Text put before a reply does not change the result when it has
    no opening brace, nor does text put after it when it has no closing
    brace. *)
Theorem surrounding_prose_is_ignored (pre text post : jsstring) :
  ~ In (ch "{") pre -> ~ In (ch "}") post ->
  Server.parse_analysis_text (Some (JStr (pre ++ text ++ post)))
  = Server.parse_analysis_text (Some (JStr text)).
Proof.
  intros Hpre Hpost.
  unfold Server.parse_analysis_text, Server.text_match.
  now rewrite match_braces_padding.
Qed.

Lemma surrounding_prose_is_ignored_witness :
  Server.parse_analysis_text
    (Some (JStr (js "Here: " ++ jsq "{'foodDetected':true,'rating':2}" ++ js " Bon appetit!")))
  = Server.parse_analysis_text (Some (JStr (jsq "{'foodDetected':true,'rating':2}"))).
Proof.
  apply (@surrounding_prose_is_ignored
           (js "Here: ") (jsq "{'foodDetected':true,'rating':2}") (js " Bon appetit!")).
  - vm_compute. intuition discriminate.
  - vm_compute. intuition discriminate.
Defined.

Lemma normalizer_flag (analysisText : jsval) :
  exists result b,
    Server.parse_analysis_text analysisText = Return result
    /\ field result "foodDetected" = Some (JBool b).
Proof.
  unfold Server.parse_analysis_text, Server.text_match.
  destruct analysisText as [[| | | s | |]|];
    try (exists Server.parse_failed, false; split; reflexivity).
  cbn [bind].
  destruct (match_braces s) as [matched|] eqn:Hm;
    [|exists Server.no_json_found, false; split; reflexivity].
  destruct (JSON.parse matched) as [parsed|e] eqn:Hp;
    [|exists Server.parse_failed, false; split; reflexivity].
  destruct (parsed_match_is_object _ Hm Hp) as [members ->].
  cbn [bind member try_catch].
  destruct (lookup (js "foodDetected") members) as [[| [|] | | | |]|] eqn:Hf;
    cbn [is_bool Bool.eqb];
    try (exists Server.undetermined, false; split; reflexivity).
  - exists (JObj members), true. split; [reflexivity | exact Hf].
  - exists (JObj members), false. split; [reflexivity | exact Hf].
Qed.

(** X7.  Whatever the text member of the provider's reply is, a string or
    not, the normalizer returns an object whose [foodDetected] is a
    boolean; it never throws. *)
Theorem normalizer_result_has_boolean_flag (analysisText : jsval) :
  exists result b,
    Server.parse_analysis_text analysisText = Return result
    /\ field result "foodDetected" = Some (JBool b).
Proof. apply normalizer_flag. Qed.

(** ** The provider calls and the route [POST /api/analyze] *)

Lemma gemini_return
    (imageData : jsval) (apiKey : option jsstring) (reply : fetch_outcome)
    (r : json) :
  Server.analyzeWithGemini imageData apiKey reply = Return r ->
  (exists status text, reply = Response status text /\ ok status = true)
  /\ (exists s, imageData = Some (JStr s))
  /\ exists b, field r "foodDetected" = Some (JBool b).
Proof.
  unfold Server.analyzeWithGemini, Server.inline_data.
  destruct imageData as [[| | | s | |]|]; try discriminate. cbn [bind].
  destruct reply as [m | status text]; [discriminate|].
  destruct (ok status) eqn:Hok; cbn [negb]; [|discriminate].
  intros H. split; [eauto | split; [eauto|]].
  repeat match type of H with
         | bind ?x _ = _ => destruct x; cbn [bind] in H; [|discriminate]
         end.
  match type of H with
  | Server.parse_analysis_text ?t = _ =>
      destruct (normalizer_flag t) as (r' & b & Hr & Hb)
  end.
  rewrite Hr in H. injection H as <-. eauto.
Qed.

Lemma perplexity_return
    (imageData : jsval) (apiKey : option jsstring) (reply : fetch_outcome)
    (r : json) :
  Server.analyzeWithPerplexity imageData apiKey reply = Return r ->
  (exists status text, reply = Response status text /\ ok status = true)
  /\ exists b, field r "foodDetected" = Some (JBool b).
Proof.
  unfold Server.analyzeWithPerplexity.
  destruct reply as [m | status text]; [discriminate|].
  destruct (ok status) eqn:Hok; cbn [negb]; [|discriminate].
  intros H. split; [eauto|].
  repeat match type of H with
         | bind ?x _ = _ => destruct x; cbn [bind] in H; [|discriminate]
         end.
  match type of H with
  | Server.parse_analysis_text ?t = _ =>
      destruct (normalizer_flag t) as (r' & b & Hr & Hb)
  end.
  rewrite Hr in H. injection H as <-. eauto.
Qed.

(** X8.  [POST /api/analyze] answers with status 200, 400 or 500 only.  It
    answers 200 only when the provider answered inside [200..299], and the
    body it then sends is an object whose [foodDetected] is a boolean. *)
Theorem analyze_status_200_means_provider_success
    (env : Server.environment) (body : jsval) (reply : fetch_outcome) :
  let handled := Server.analyze env body reply in
  (Server.status_of (Server.sent handled) = 200%Z
   \/ Server.status_of (Server.sent handled) = 400%Z
   \/ Server.status_of (Server.sent handled) = 500%Z)
  /\ (Server.status_of (Server.sent handled) = 200%Z ->
      (exists status text, reply = Response status text /\ ok status = true)
      /\ exists analysisResult b,
           Server.sent handled = Server.Reply 200 analysisResult
           /\ field analysisResult "foodDetected" = Some (JBool b)).
Proof.
  cbv zeta. unfold Server.analyze.
  destruct (Server.destructure body) as [[imageData provider]|e];
    [|simpl; split; [auto | discriminate]].
  destruct (truthy imageData); cbn [negb];
    [|simpl; split; [auto | discriminate]].
  destruct (is_string provider (js "gemini")).
  - destruct (truthy (Server.isValidGeminiAPIKey _)); cbn [negb];
      [|simpl; split; [auto | discriminate]].
    cbn [Server.sent].
    destruct (Server.analyzeWithGemini imageData (Server.GEMINI_API_KEY env) reply)
      as [r|e] eqn:E; simpl; (split; [auto|]); [|discriminate].
    intros _. destruct (gemini_return _ _ _ E) as (Hreply & _ & b & Hb).
    split; [exact Hreply | eauto].
  - destruct (truthy (Server.isValidAPIKey _)); cbn [negb];
      [|simpl; split; [auto | discriminate]].
    cbn [Server.sent].
    destruct (Server.analyzeWithPerplexity imageData (Server.PERPLEXITY_API_KEY env) reply)
      as [r|e] eqn:E; simpl; (split; [auto|]); [|discriminate].
    intros _. destruct (perplexity_return _ _ _ E) as (Hreply & b & Hb).
    split; [exact Hreply | eauto].
Qed.

Lemma analyze_status_200_means_provider_success_witness :
  exists analysisResult b,
    Server.sent
      (Server.analyze
         {| Server.PERPLEXITY_API_KEY := None;
            Server.GEMINI_API_KEY := Some (js "AIzaSyTESTKEY1234567890");
            Server.DEFAULT_AI_PROVIDER := None |}
         example_request
         (Response 200
            (jsq "{'candidates':[{'content':{'parts':[{'text':'{\'foodDetected\':true}'}]}}]}")))
    = Server.Reply 200 analysisResult
    /\ field analysisResult "foodDetected" = Some (JBool b).
Proof.
  apply (proj2 (@analyze_status_200_means_provider_success
          {| Server.PERPLEXITY_API_KEY := None;
             Server.GEMINI_API_KEY := Some (js "AIzaSyTESTKEY1234567890");
             Server.DEFAULT_AI_PROVIDER := None |}
          example_request
          (Response 200
             (jsq "{'candidates':[{'content':{'parts':[{'text':'{\'foodDetected\':true}'}]}}]}")))).
  vm_compute. reflexivity.
Defined.

(** X9.  The route calls a provider only with a key that passed that
    provider's validator and with an [imageData] that is truthy; when it
    calls none, it answers 400 or, for a body that is [null] or
    [undefined], 500. *)
Theorem provider_called_only_with_valid_key
    (env : Server.environment) (body : jsval) (reply : fetch_outcome) :
  let handled := Server.analyze env body reply in
  (Server.invoked handled = Some Server.Gemini ->
   truthy (Server.isValidGeminiAPIKey (Server.GEMINI_API_KEY env)) = true
   /\ exists imageData, member body (js "imageData") = Return imageData
                        /\ truthy imageData = true)
  /\ (Server.invoked handled = Some Server.Perplexity ->
      truthy (Server.isValidAPIKey (Server.PERPLEXITY_API_KEY env)) = true
      /\ exists imageData, member body (js "imageData") = Return imageData
                           /\ truthy imageData = true)
  /\ (Server.invoked handled = None ->
      Server.status_of (Server.sent handled) = 400%Z
      \/ (Server.sent handled = Server.Failed (js "Analysis failed") TypeError
          /\ (body = None \/ body = Some JNull))).
Proof.
  cbv zeta. unfold Server.analyze, Server.destructure.
  destruct (member body (js "imageData")) as [imageData|e] eqn:Hi; cbn [bind].
  2:{ repeat split; try discriminate. intros _. right.
      destruct body as [[| | | | |]|]; simpl in Hi; try discriminate;
        injection Hi as <-; auto. }
  destruct (member body (js "provider")) as [provider|e] eqn:Hp; cbn [bind].
  2:{ destruct body as [[| | | | |]|]; simpl in Hi, Hp; discriminate. }
  destruct (truthy imageData) eqn:Ht; cbn [negb];
    [|repeat split; try discriminate; auto].
  destruct (is_string _ (js "gemini")).
  - destruct (truthy (Server.isValidGeminiAPIKey _)) eqn:Hk; cbn [negb];
      simpl; repeat split; try discriminate; eauto.
  - destruct (truthy (Server.isValidAPIKey _)) eqn:Hk; cbn [negb];
      simpl; repeat split; try discriminate; eauto.
Qed.

Lemma provider_called_only_with_valid_key_witness :
  truthy (Server.isValidGeminiAPIKey (Some (js "AIzaSyTESTKEY1234567890"))) = true.
Proof.
  apply (proj1 (@provider_called_only_with_valid_key
          {| Server.PERPLEXITY_API_KEY := None;
             Server.GEMINI_API_KEY := Some (js "AIzaSyTESTKEY1234567890");
             Server.DEFAULT_AI_PROVIDER := None |}
          example_request (FetchRejected (js "offline")))).
  vm_compute. reflexivity.
Defined.

(** X10.  On the Gemini path an [imageData] that is truthy but not a
    string is answered with status 500 whatever the provider would reply:
    [imageData.split] throws before the request is made. *)
Theorem gemini_needs_a_string_image
    (env : Server.environment) (members : list (jsstring * json))
    (imageData : json) (reply : fetch_outcome) :
  lookup (js "imageData") members = Some imageData ->
  truthy (Some imageData) = true ->
  (forall s, imageData <> JStr s) ->
  (lookup (js "provider") members = None
   \/ lookup (js "provider") members = Some (JStr (js "gemini"))) ->
  truthy (Server.isValidGeminiAPIKey (Server.GEMINI_API_KEY env)) = true ->
  Server.sent (Server.analyze env (Some (JObj members)) reply)
  = Server.Failed (js "Analysis failed") TypeError
  /\ Server.status_of (Server.sent (Server.analyze env (Some (JObj members)) reply))
     = 500%Z.
Proof.
  intros Himg Ht Hns Hprov Hkey.
  assert (H : Server.sent (Server.analyze env (Some (JObj members)) reply)
              = Server.Failed (js "Analysis failed") TypeError).
  { unfold Server.analyze, Server.destructure, member. cbn [bind].
    rewrite Himg, Ht. cbn [negb].
    assert (E : is_string
                  match lookup (js "provider") members with
                  | Some _ => lookup (js "provider") members
                  | None => Some (JStr (js "gemini"))
                  end (js "gemini") = true)
      by (destruct Hprov as [-> | ->]; reflexivity).
    rewrite E, Hkey. cbn [negb Server.sent].
    unfold Server.analyzeWithGemini, Server.inline_data.
    destruct imageData; try reflexivity. now destruct (Hns s). }
  rewrite H. split; reflexivity.
Qed.

Lemma gemini_needs_a_string_image_witness :
  Server.sent
    (Server.analyze
       {| Server.PERPLEXITY_API_KEY := None;
          Server.GEMINI_API_KEY := Some (js "AIzaSyTESTKEY1234567890");
          Server.DEFAULT_AI_PROVIDER := None |}
       (Some (JObj [(js "imageData", JNum 42 0)]))
       (Response 200 (js "{}")))
  = Server.Failed (js "Analysis failed") TypeError.
Proof.
  apply (proj1 (@gemini_needs_a_string_image
          {| Server.PERPLEXITY_API_KEY := None;
             Server.GEMINI_API_KEY := Some (js "AIzaSyTESTKEY1234567890");
             Server.DEFAULT_AI_PROVIDER := None |}
          [(js "imageData", JNum 42 0)] (JNum 42 0) (Response 200 (js "{}"))
          ltac:(vm_compute; reflexivity)
          ltac:(vm_compute; reflexivity)
          ltac:(intros s; discriminate)
          ltac:(left; vm_compute; reflexivity)
          ltac:(vm_compute; reflexivity))).
Defined.

(** X11.  A reply inside [200..299] whose object has no first candidate
    (Gemini: [candidates] missing, [null] or empty) or no first choice
    (Perplexity: [choices] missing, [null] or empty) makes the provider
    function throw a TypeError: this is outside its [try], so the route
    answers 500 and not a no-food result. *)
Theorem reply_without_candidate_throws
    (imageData : jsstring) (apiKey : option jsstring)
    (status : Z) (text : jsstring) (members : list (jsstring * json)) :
  ok status = true ->
  JSON.parse text = Return (JObj members) ->
  ((lookup (js "candidates") members = None
    \/ lookup (js "candidates") members = Some JNull
    \/ lookup (js "candidates") members = Some (JArr [])) ->
   Server.analyzeWithGemini (Some (JStr imageData)) apiKey (Response status text)
   = Throw TypeError)
  /\ ((lookup (js "choices") members = None
       \/ lookup (js "choices") members = Some JNull
       \/ lookup (js "choices") members = Some (JArr [])) ->
      Server.analyzeWithPerplexity (Some (JStr imageData)) apiKey (Response status text)
      = Throw TypeError)
  /\ Server.send_analysis (Throw TypeError)
     = Server.Failed (js "Analysis failed") TypeError.
Proof.
  intros Hok Hp. split; [|split; [|reflexivity]].
  - intros H. unfold Server.analyzeWithGemini, Server.inline_data. cbn [bind].
    rewrite Hok, Hp. cbn [negb bind member].
    destruct H as [-> | [-> | ->]]; reflexivity.
  - intros H. unfold Server.analyzeWithPerplexity.
    rewrite Hok, Hp. cbn [negb bind member].
    destruct H as [-> | [-> | ->]]; reflexivity.
Qed.

Lemma reply_without_candidate_throws_witness :
  Server.analyzeWithGemini (Some (JStr (js "data:image/jpeg;base64,Zm9v")))
    (Some (js "AIzaSyTESTKEY1234567890"))
    (Response 200 (jsq "{'promptFeedback':{'blockReason':'SAFETY'}}"))
  = Throw TypeError.
Proof.
  apply (proj1 (@reply_without_candidate_throws
          (js "data:image/jpeg;base64,Zm9v") (Some (js "AIzaSyTESTKEY1234567890"))
          200 (jsq "{'promptFeedback':{'blockReason':'SAFETY'}}")
          [(js "promptFeedback", JObj [(js "blockReason", JStr (js "SAFETY"))])]
          ltac:(vm_compute; reflexivity)
          ltac:(vm_compute; reflexivity))).
  left. vm_compute. reflexivity.
Defined.

Lemma member_of_field (j : json) (k : string) (v : json) :
  field j k = Some v -> member (Some j) (js k) = Return (Some v).
Proof.
  destruct j; simpl; try discriminate. now intros ->.
Qed.

Lemma first_of_array (item : json) (items : list json) :
  member (Some (JArr (item :: items))) (js "0") = Return (Some item).
Proof. reflexivity. Qed.

(** With a first part in the first candidate, [analyzeWithGemini] hands
    the [text] of that part to the normalizer. *)
Lemma gemini_reads_first_part
    (imageData : jsstring) (apiKey : option jsstring)
    (status : Z) (text : jsstring) (result candidate content part : json)
    (candidates parts : list json) :
  ok status = true ->
  JSON.parse text = Return result ->
  field result "candidates" = Some (JArr (candidate :: candidates)) ->
  field candidate "content" = Some content ->
  field content "parts" = Some (JArr (part :: parts)) ->
  Server.analyzeWithGemini (Some (JStr imageData)) apiKey (Response status text)
  = bind (member (Some part) (js "text")) Server.parse_analysis_text.
Proof.
  intros Hok Hp Hc Hcontent Hparts.
  unfold Server.analyzeWithGemini, Server.inline_data. cbn [bind].
  rewrite Hok, Hp. cbn [negb bind].
  rewrite (member_of_field _ _ Hc). cbn [bind].
  rewrite first_of_array. cbn [bind].
  rewrite (member_of_field _ _ Hcontent). cbn [bind].
  rewrite (member_of_field _ _ Hparts). cbn [bind].
  rewrite first_of_array. reflexivity.
Qed.

(** With a message in the first choice, [analyzeWithPerplexity] hands
    the [content] of that message to the normalizer. *)
Lemma perplexity_reads_first_message
    (imageData : jsval) (apiKey : option jsstring)
    (status : Z) (text : jsstring) (result choice message : json)
    (choices : list json) :
  ok status = true ->
  JSON.parse text = Return result ->
  field result "choices" = Some (JArr (choice :: choices)) ->
  field choice "message" = Some message ->
  Server.analyzeWithPerplexity imageData apiKey (Response status text)
  = bind (member (Some message) (js "content")) Server.parse_analysis_text.
Proof.
  intros Hok Hp Hc Hm.
  unfold Server.analyzeWithPerplexity.
  rewrite Hok, Hp. cbn [negb bind].
  rewrite (member_of_field _ _ Hc). cbn [bind].
  rewrite first_of_array. cbn [bind].
  rewrite (member_of_field _ _ Hm). reflexivity.
Qed.

(** Reading [text] or [content] from a value that is not [null]: a member
    of that name when the value is an object, and [undefined] otherwise. *)
Lemma member_is_field (holder : json) (k : string) :
  holder <> JNull ->
  k = "text" \/ k = "content" ->
  member (Some holder) (js k) = Return (field holder k).
Proof.
  intros Hnull [-> | ->]; destruct holder; try reflexivity; congruence.
Qed.

Lemma normalizer_absorbs_non_string (analysisText : jsval) :
  (forall s, analysisText <> Some (JStr s)) ->
  Server.parse_analysis_text analysisText = Return Server.parse_failed.
Proof.
  intros Hns. unfold Server.parse_analysis_text, Server.text_match.
  destruct analysisText as [[| | | s | |]|]; try reflexivity.
  now destruct (Hns s).
Qed.

(** X12.  When the first part of the first candidate is there (and is not
    [null]) but its [text] is missing or is not a string, the TypeError of
    [match] is caught: [analyzeWithGemini] returns the no-food result with
    the message [Error analyzing image. ...]; and so does
    [analyzeWithPerplexity] when the message of the first choice has a
    [content] that is missing or not a string.  The reply may hold any
    other members, candidates and parts. *)
Theorem reply_without_text_is_absorbed
    (imageData : jsstring) (apiKey : option jsstring)
    (status : Z) (text : jsstring) (result : json) :
  ok status = true ->
  JSON.parse text = Return result ->
  (forall candidate candidates content part parts,
     field result "candidates" = Some (JArr (candidate :: candidates)) ->
     field candidate "content" = Some content ->
     field content "parts" = Some (JArr (part :: parts)) ->
     part <> JNull ->
     (forall s, field part "text" <> Some (JStr s)) ->
     Server.analyzeWithGemini (Some (JStr imageData)) apiKey (Response status text)
     = Return Server.parse_failed)
  /\ (forall choice choices message,
        field result "choices" = Some (JArr (choice :: choices)) ->
        field choice "message" = Some message ->
        message <> JNull ->
        (forall s, field message "content" <> Some (JStr s)) ->
        Server.analyzeWithPerplexity (Some (JStr imageData)) apiKey (Response status text)
        = Return Server.parse_failed).
Proof.
  intros Hok Hp. split.
  - intros candidate candidates content part parts Hc Hcontent Hparts Hnull Hns.
    rewrite (@gemini_reads_first_part imageData apiKey _ _ _ _ _ _ _ _ Hok Hp Hc Hcontent Hparts).
    rewrite (@member_is_field part "text" Hnull (or_introl eq_refl)). cbn [bind].
    now apply normalizer_absorbs_non_string.
  - intros choice choices message Hc Hm Hnull Hns.
    rewrite (@perplexity_reads_first_message (Some (JStr imageData)) apiKey _ _ _ _ _ _ Hok Hp Hc Hm).
    rewrite (@member_is_field message "content" Hnull (or_intror eq_refl)). cbn [bind].
    now apply normalizer_absorbs_non_string.
Qed.

Lemma reply_without_text_is_absorbed_witness :
  Server.analyzeWithGemini (Some (JStr (js "data:image/jpeg;base64,Zm9v")))
    (Some (js "AIzaSyTESTKEY1234567890"))
    (Response 200
       (jsq "{'candidates':[{'content':{'parts':[{'inlineData':{}}],'role':'model'},'finishReason':'STOP'}],'usageMetadata':{'totalTokenCount':7}}"))
  = Return Server.parse_failed.
Proof.
  eapply (proj1 (@reply_without_text_is_absorbed
          (js "data:image/jpeg;base64,Zm9v") (Some (js "AIzaSyTESTKEY1234567890"))
          200
          (jsq "{'candidates':[{'content':{'parts':[{'inlineData':{}}],'role':'model'},'finishReason':'STOP'}],'usageMetadata':{'totalTokenCount':7}}")
          _
          ltac:(vm_compute; reflexivity)
          ltac:(vm_compute; reflexivity))).
  - vm_compute. reflexivity.
  - vm_compute. reflexivity.
  - vm_compute. reflexivity.
  - discriminate.
  - intros s. vm_compute. discriminate.
Defined.

(** X13.  [imageData.split(',')[1]] removes the header of a data URI: when
    neither the header nor the payload holds a comma it is the payload, and
    it is [undefined] when the image text holds no comma at all. *)
Theorem inline_data_is_the_payload (header payload : jsstring) :
  ~ In (ch ",") header ->
  (~ In (ch ",") payload ->
   Server.inline_data (Some (JStr (header ++ [ch ","] ++ payload)))
   = Return (Some payload))
  /\ Server.inline_data (Some (JStr header)) = Return None.
Proof.
  intros Hh.
  assert (Hafter : forall tail,
             Server.after_comma (header ++ tail) = Server.after_comma tail).
  { intros tail. induction header as [|c header IH]; [reflexivity|]. simpl.
    destruct (N.eqb c (ch ",")) eqn:E.
    - apply N.eqb_eq in E. destruct Hh. now left.
    - apply IH. intros H. apply Hh. now right. }
  split.
  - intros Hp. unfold Server.inline_data. rewrite Hafter. simpl.
    do 2 f_equal. induction payload as [|c payload IH]; [reflexivity|]. simpl.
    destruct (N.eqb c (ch ",")) eqn:E.
    + apply N.eqb_eq in E. destruct Hp. now left.
    + f_equal. apply IH. intros H. apply Hp. now right.
  - unfold Server.inline_data.
    specialize (Hafter []). rewrite app_nil_r in Hafter. now rewrite Hafter.
Qed.

Lemma inline_data_is_the_payload_witness :
  Server.inline_data (Some (JStr (js "data:image/jpeg;base64,Zm9v")))
  = Return (Some (js "Zm9v")).
Proof.
  apply (proj1 (@inline_data_is_the_payload
                  (js "data:image/jpeg;base64") (js "Zm9v")
                  ltac:(vm_compute; intuition discriminate))).
  vm_compute. intuition discriminate.
Defined.

(** ** The routes that test a key *)

(** X14.  [GET /api/test-perplexity]: without a valid key the answer is
    400 and Perplexity is not called.  With a valid key the answer is 200
    exactly when Perplexity answered inside [200..299] or its error text
    contains [Invalid model], whatever the status of that error; the body
    says [success: true] only in the first case; every other outcome is a
    500. *)
Theorem test_perplexity_verdict
    (env : Server.environment) (reply : fetch_outcome) :
  let handled := Server.test_perplexity env reply in
  (truthy (Server.isValidAPIKey (Server.PERPLEXITY_API_KEY env)) = false ->
   Server.status_of (Server.sent handled) = 400%Z
   /\ Server.invoked handled = None)
  /\ (truthy (Server.isValidAPIKey (Server.PERPLEXITY_API_KEY env)) = true ->
      (Server.status_of (Server.sent handled) = 200%Z
       <-> exists status text,
             reply = Response status text
             /\ (ok status = true
                 \/ exists pre post, text = pre ++ js "Invalid model" ++ post))
      /\ (forall body,
            Server.sent handled = Server.Reply 200 body ->
            (field body "success" = Some (JBool true)
             <-> exists status text, reply = Response status text /\ ok status = true))
      /\ (Server.status_of (Server.sent handled) = 200%Z
          \/ Server.status_of (Server.sent handled) = 500%Z)).
Proof.
  cbv zeta. unfold Server.test_perplexity. split.
  - intros ->. split; reflexivity.
  - intros ->. cbn [negb Server.sent]. unfold Server.testPerplexityAPI.
    destruct reply as [m | status text].
    + simpl. split; [|split].
      * split; [discriminate | intros (s & t & H & _); discriminate].
      * intros body H. discriminate.
      * now right.
    + destruct (ok status) eqn:Hok; cbn [negb].
      * simpl. split; [|split].
        -- split; [intros _; exists status, text; auto | reflexivity].
        -- intros body [= <-]. split; [intros _; eauto | reflexivity].
        -- now left.
      * destruct (includes text (js "Invalid model")) eqn:Hinc.
        -- apply includes_substring in Hinc. simpl. split; [|split].
           ++ split; [intros _; exists status, text; auto | reflexivity].
           ++ intros body [= <-]. split; [discriminate|].
              intros (s & t & [= <- <-] & Hs). congruence.
           ++ now left.
        -- simpl. split; [|split].
           ++ split; [discriminate|].
              intros (s & t & [= <- <-] & [Hs | Hs]); [congruence|].
              assert (Hyes : includes text (js "Invalid model") = true)
                by (apply includes_substring; exact Hs).
              congruence.
           ++ intros body H. discriminate.
           ++ now right.
Qed.

Lemma test_perplexity_verdict_witness :
  Server.status_of
    (Server.sent
       (Server.test_perplexity
          {| Server.PERPLEXITY_API_KEY := Some (js "pplx-0123456789abcdefghijklmn");
             Server.GEMINI_API_KEY := None;
             Server.DEFAULT_AI_PROVIDER := None |}
          (Response 401 (js "Unauthorized. Invalid model or key."))))
  = 200%Z.
Proof.
  apply (proj1 (proj2 (@test_perplexity_verdict
          {| Server.PERPLEXITY_API_KEY := Some (js "pplx-0123456789abcdefghijklmn");
             Server.GEMINI_API_KEY := None;
             Server.DEFAULT_AI_PROVIDER := None |}
          (Response 401 (js "Unauthorized. Invalid model or key.")))
          ltac:(vm_compute; reflexivity))).
  exists 401%Z, (js "Unauthorized. Invalid model or key."). split; [reflexivity|].
  right. exists (js "Unauthorized. "), (js " or key."). vm_compute. reflexivity.
Defined.

(** X15.  [GET /api/test-gemini]: without a valid key the answer is 400
    and Gemini is not called.  With a valid key the answer is 200 with
    [success: true] exactly when Gemini answered inside [200..299], and 500
    otherwise: here an error text is never turned into a 200. *)
Theorem test_gemini_verdict
    (env : Server.environment) (reply : fetch_outcome) :
  let handled := Server.test_gemini env reply in
  (truthy (Server.isValidGeminiAPIKey (Server.GEMINI_API_KEY env)) = false ->
   Server.status_of (Server.sent handled) = 400%Z
   /\ Server.invoked handled = None)
  /\ (truthy (Server.isValidGeminiAPIKey (Server.GEMINI_API_KEY env)) = true ->
      ((exists status text, reply = Response status text /\ ok status = true) ->
       Server.sent handled
       = Server.Reply 200 (Server.test_passed (js "Gemini API key is valid and working")))
      /\ (~ (exists status text, reply = Response status text /\ ok status = true) ->
          Server.status_of (Server.sent handled) = 500%Z)).
Proof.
  cbv zeta. unfold Server.test_gemini. split.
  - intros ->. split; reflexivity.
  - intros ->. cbn [negb Server.sent]. unfold Server.testGeminiAPI.
    destruct reply as [m | status text].
    + split; [intros (s & t & H & _); discriminate | reflexivity].
    + destruct (ok status) eqn:Hok; cbn [negb]; split.
      * reflexivity.
      * intros H. destruct H. eauto.
      * intros (s & t & [= <- <-] & Hs). congruence.
      * reflexivity.
Qed.

Lemma test_gemini_verdict_witness :
  Server.status_of
    (Server.sent
       (Server.test_gemini
          {| Server.PERPLEXITY_API_KEY := None;
             Server.GEMINI_API_KEY := Some (js "AIzaSyTESTKEY1234567890");
             Server.DEFAULT_AI_PROVIDER := None |}
          (Response 404 (js "Invalid model"))))
  = 500%Z.
Proof.
  apply (proj2 (proj2 (@test_gemini_verdict
          {| Server.PERPLEXITY_API_KEY := None;
             Server.GEMINI_API_KEY := Some (js "AIzaSyTESTKEY1234567890");
             Server.DEFAULT_AI_PROVIDER := None |}
          (Response 404 (js "Invalid model")))
          ltac:(vm_compute; reflexivity))).
  intros (s & t & [= <- <-] & Hs). vm_compute in Hs. discriminate.
Defined.

(** ** The camera *)

(** X16.  [detectMobileDevice] answers [true] exactly when the user agent
    contains one of the eight markers, with the same capitals. *)
Theorem mobile_detection_by_marker (userAgent : jsstring) :
  App.detectMobileDevice userAgent = true
  <-> exists agent pre post,
        In agent App.mobileUserAgents /\ userAgent = pre ++ agent ++ post.
Proof.
  unfold App.detectMobileDevice. rewrite existsb_exists. split.
  - intros (agent & Hin & Hinc). apply includes_substring in Hinc as (pre & post & ->).
    now exists agent, pre, post.
  - intros (agent & pre & post & Hin & ->). exists agent. split; [exact Hin|].
    apply includes_substring. now exists pre, post.
Qed.

(** X17.  [initializeCamera] asks for the camera only when the browser
    has [getUserMedia] and the page is on [https:] or on [localhost]; it
    then asks for the rear camera exactly on a mobile user agent.  When it
    does not ask, the fields [camera] and [cameraStream] are left as they
    were; when it ends without throwing, both are set. *)
Theorem camera_is_requested_on_secure_origin_only
    (b : App.browser) (before : App.camera_state) :
  let run := App.initializeCamera b before in
  (forall constraints,
     App.requested run = Some constraints ->
     App.has_getUserMedia b = true
     /\ secure_origin b
     /\ constraints = App.getCameraConstraints (App.detectMobileDevice (App.userAgent b)))
  /\ (App.requested run = None ->
      App.state run = before /\ App.failure run <> None)
  /\ (App.failure run = None ->
      App.state run = {| App.camera := true; App.cameraStream := true |}
      /\ App.requested run <> None).
Proof.
  cbv zeta. unfold App.initializeCamera, App.isCameraSupported, secure_origin.
  destruct (App.has_getUserMedia b); cbn [negb];
    [|repeat split; try discriminate].
  destruct (jsstring_eqb (App.protocol b) (js "https:")) eqn:Ep; cbn [negb andb].
  - apply jsstring_eqb_eq in Ep.
    destruct (App.getUserMedia b); [destruct (App.has_camera_element b) eqn:Ec|];
      cbn [negb App.requested App.state App.failure];
      repeat split; try discriminate; try congruence; now left.
  - destruct (jsstring_eqb (App.hostname b) (js "localhost")) eqn:Eh; cbn [negb];
      [|repeat split; try discriminate].
    apply jsstring_eqb_eq in Eh.
    destruct (App.getUserMedia b); [destruct (App.has_camera_element b) eqn:Ec|];
      cbn [negb App.requested App.state App.failure];
      repeat split; try discriminate; try congruence; now right.
Qed.

Lemma camera_is_requested_on_secure_origin_only_witness :
  let b := {| App.has_getUserMedia := true;
              App.protocol := js "http:";
              App.hostname := js "localhost";
              App.userAgent := js "Mozilla/5.0 (iPhone; CPU iPhone OS 14_0 like Mac OS X)";
              App.getUserMedia := App.StreamObtained;
              App.has_camera_element := true;
              App.video := App.MetadataLoaded |} in
  App.has_getUserMedia b = true
  /\ secure_origin b
  /\ App.getCameraConstraints true
     = App.getCameraConstraints (App.detectMobileDevice (App.userAgent b)).
Proof.
  cbv zeta.
  apply (proj1 (@camera_is_requested_on_secure_origin_only
          {| App.has_getUserMedia := true;
             App.protocol := js "http:";
             App.hostname := js "localhost";
             App.userAgent := js "Mozilla/5.0 (iPhone; CPU iPhone OS 14_0 like Mac OS X)";
             App.getUserMedia := App.StreamObtained;
             App.has_camera_element := true;
             App.video := App.MetadataLoaded |}
          {| App.camera := false; App.cameraStream := false |})).
  vm_compute. reflexivity.
Defined.

(** X18.  After a run of [initializeCamera], [captureImageFromCamera]
    returns the frame exactly when: the run obtained a stream and found the
    video element (even if loading the video then timed out or failed), or
    the run stopped before that and [camera] was already set.  A run that
    obtains a stream but finds no video element resets [camera], so capture
    throws [Camera not initialized] even if it worked before. *)
Theorem capture_after_initialization
    (b : App.browser) (before : App.camera_state) (frame : jsstring) :
  let run := App.initializeCamera b before in
  let reached_element :=
    App.has_getUserMedia b
    && (jsstring_eqb (App.protocol b) (js "https:")
        || jsstring_eqb (App.hostname b) (js "localhost"))
    && match App.getUserMedia b with
       | App.StreamObtained => true
       | App.MediaRejected _ => false
       end in
  App.captureImageFromCamera (App.state run) frame
  = (if (if reached_element then App.has_camera_element b else App.camera before)
     then inr frame
     else inl (App.CameraError (js "Camera not initialized")))
  /\ (App.failure run = None ->
      App.captureImageFromCamera (App.state run) frame = inr frame).
Proof.
  cbv zeta. unfold App.initializeCamera, App.isCameraSupported, App.captureImageFromCamera.
  destruct (App.has_getUserMedia b),
           (jsstring_eqb (App.protocol b) (js "https:")),
           (jsstring_eqb (App.hostname b) (js "localhost")),
           (App.getUserMedia b), (App.has_camera_element b);
    cbn [negb andb orb App.state App.camera App.failure];
    destruct (App.camera before); cbn [negb];
    split; try reflexivity; try discriminate; try (intros _; reflexivity).
Qed.

Lemma capture_after_initialization_witness :
  App.captureImageFromCamera
    (App.state
       (App.initializeCamera
          {| App.has_getUserMedia := true;
             App.protocol := js "https:";
             App.hostname := js "example.org";
             App.userAgent := js "Mozilla/5.0 (Windows NT 10.0; Win64; x64)";
             App.getUserMedia := App.StreamObtained;
             App.has_camera_element := true;
             App.video := App.MetadataLoaded |}
          {| App.camera := false; App.cameraStream := false |}))
    (js "data:image/jpeg;base64,Zm9v")
  = inr (js "data:image/jpeg;base64,Zm9v").
Proof.
  apply (proj2 (@capture_after_initialization
          {| App.has_getUserMedia := true;
             App.protocol := js "https:";
             App.hostname := js "example.org";
             App.userAgent := js "Mozilla/5.0 (Windows NT 10.0; Win64; x64)";
             App.getUserMedia := App.StreamObtained;
             App.has_camera_element := true;
             App.video := App.MetadataLoaded |}
          {| App.camera := false; App.cameraStream := false |}
          (js "data:image/jpeg;base64,Zm9v"))).
  vm_compute. reflexivity.
Defined.

(** ** The notifications of the orchestrator *)

(** X19.  [analyzeImageWithAI] never falls back silently: it shows the
    demo-mode notice for a missing configuration exactly when the
    configuration is falsy, the demo-mode notice for the key exactly when
    the key check fails and the provider could be printed, and the API
    error notice exactly when the key check passed, the provider could be
    printed and the call of [/api/analyze] threw; with each of them it
    returns the mock result.  When it shows nothing and returns, what it
    returns is the parsed body of an answer inside [200..299]. *)
Theorem fallback_is_notified
    (config_reply : fetch_outcome) (imageData : jsstring)
    (reply : fetch_outcome) (draw1 draw2 : Q) :
  let config := App.getAPIConfigFromServer config_reply in
  let run := App.analyzeImageWithAI config_reply imageData reply draw1 draw2 in
  let printed :=
    exists provider,
      App.provider_of config = Return provider
      /\ interpolate provider = Return tt in
  (App.shown run = Some App.DemoModeNoConfig <-> truthy (Some config) = false)
  /\ (App.shown run = Some App.DemoModeNoKey
      <-> truthy (Some config) = true
          /\ App.configured_key_is_valid config = Return false
          /\ printed)
  /\ (App.shown run = Some App.ApiError
      <-> truthy (Some config) = true
          /\ App.configured_key_is_valid config = Return true
          /\ printed
          /\ exists e, App.request_analysis reply = Throw e)
  /\ (App.shown run <> None ->
      App.settled run = Return (App.getMockAnalysisResult draw1 draw2))
  /\ (forall analysisResult,
        App.shown run = None ->
        App.settled run = Return analysisResult ->
        exists status text data,
          reply = Response status text /\ ok status = true
          /\ JSON.parse text = Return data /\ analysisResult = Some data).
Proof.
  cbv zeta. unfold App.analyzeImageWithAI, App.configured_key_is_valid.
  destruct (truthy (Some (App.getAPIConfigFromServer config_reply))) eqn:Ht;
    cbn [negb].
  2:{ cbn [App.shown App.settled]. settle_cases. }
  destruct (App.provider_of (App.getAPIConfigFromServer config_reply))
    as [provider|e] eqn:Hprov; cbn [bind].
  2:{ cbn [App.shown App.settled]. settle_cases. }
  destruct (bind (App.apiKey_of (App.getAPIConfigFromServer config_reply) provider)
              (fun apiKey => App.isValidAPIKey apiKey provider))
    as [[|]|e] eqn:Hv.
  - destruct (interpolate provider) as [[]|e] eqn:Hi.
    + destruct (App.request_analysis reply) as [data|e] eqn:Hr;
        cbn [App.shown App.settled].
      * repeat split; try discriminate; try tauto;
          try (intros H; decompose [and ex] H; discriminate);
          try (intros H; now destruct H).
        intros analysisResult _ [= <-].
        unfold App.request_analysis in Hr.
        destruct reply as [m | status text]; [discriminate|].
        destruct (ok status) eqn:Hok; cbn [negb] in Hr; [|discriminate].
        destruct (JSON.parse text) as [d|e] eqn:Hp; cbn [bind] in Hr;
          [|discriminate].
        injection Hr as <-. exists status, text, d. auto.
      * repeat split; try discriminate; try tauto; eauto;
          try (intros H; decompose [and ex] H; discriminate).
    + cbn [App.shown App.settled].
      repeat split; try discriminate; try tauto;
        try (intros H; now destruct H);
        intros H; decompose [and ex] H; congruence.
  - destruct (interpolate provider) as [[]|e] eqn:Hi; cbn [App.shown App.settled].
    + repeat split; try discriminate; try tauto; eauto;
        try (intros H; decompose [and ex] H; discriminate).
    + repeat split; try discriminate; try tauto;
        try (intros H; now destruct H);
        intros H; decompose [and ex] H; congruence.
  - cbn [App.shown App.settled].
    repeat split; try discriminate; try tauto;
      try (intros H; now destruct H);
      intros H; decompose [and ex] H; discriminate.
Qed.

Lemma fallback_is_notified_witness :
  App.settled
    (App.analyzeImageWithAI
       (Response 200 (jsq "{'geminiApiKey':'AIzaSyTESTKEY1234567890','defaultProvider':'gemini'}"))
       (js "data:image/jpeg;base64,Zm9v")
       (Response 500 (jsq "{'error':'Analysis failed','message':'boom'}"))
       (9 # 10) (1 # 10))
  = Return (App.getMockAnalysisResult (9 # 10) (1 # 10)).
Proof.
  apply (proj1 (proj2 (proj2 (proj2 (@fallback_is_notified
          (Response 200 (jsq "{'geminiApiKey':'AIzaSyTESTKEY1234567890','defaultProvider':'gemini'}"))
          (js "data:image/jpeg;base64,Zm9v")
          (Response 500 (jsq "{'error':'Analysis failed','message':'boom'}"))
          (9 # 10) (1 # 10)))))).
  vm_compute. discriminate.
Defined.

(** X20.  [getAPIConfigFromServer] does not look at the status of the
    answer: any answer whose body is an object without [defaultProvider]
    and without [geminiApiKey], such as the [{error, message}] of a 404 or
    a 500, is taken as a configuration for Gemini without a key, so the
    client shows the demo-mode notice for the key and returns the mock
    result without calling [/api/analyze]. *)
Theorem keyless_config_body_means_demo_mode
    (status : Z) (text : jsstring) (members : list (jsstring * json))
    (imageData : jsstring) (reply : fetch_outcome) (draw1 draw2 : Q) :
  JSON.parse text = Return (JObj members) ->
  lookup (js "defaultProvider") members = None ->
  lookup (js "geminiApiKey") members = None ->
  let run := App.analyzeImageWithAI (Response status text) imageData reply draw1 draw2 in
  App.shown run = Some App.DemoModeNoKey
  /\ App.settled run = Return (App.getMockAnalysisResult draw1 draw2).
Proof.
  intros Hp Hd Hk. cbv zeta. unfold App.analyzeImageWithAI, App.getAPIConfigFromServer.
  rewrite Hp. cbn [truthy negb].
  unfold App.provider_of, member. rewrite Hd.
  cbn [bind truthy]. unfold App.apiKey_of.
  change (is_string (Some (JStr (js "gemini"))) (js "gemini")) with true.
  cbv iota. unfold member. rewrite Hk. cbn [bind]. split; reflexivity.
Qed.

Lemma keyless_config_body_means_demo_mode_witness :
  App.shown
    (App.analyzeImageWithAI
       (Response 404 (jsq "{'error':'Not found','message':'Route /api/config not found'}"))
       (js "data:image/jpeg;base64,Zm9v")
       (Response 200 (js "{}"))
       (1 # 2) (1 # 2))
  = Some App.DemoModeNoKey.
Proof.
  apply (proj1 (@keyless_config_body_means_demo_mode
          404 (jsq "{'error':'Not found','message':'Route /api/config not found'}")
          [(js "error", JStr (js "Not found"));
           (js "message", JStr (js "Route /api/config not found"))]
          (js "data:image/jpeg;base64,Zm9v") (Response 200 (js "{}")) (1 # 2) (1 # 2)
          ltac:(vm_compute; reflexivity)
          ltac:(vm_compute; reflexivity)
          ltac:(vm_compute; reflexivity))).
Defined.

(** X21.  With a valid Gemini key, a string image and a Gemini answer
    inside [200..299] whose first part has a [text] that holds an object
    with a boolean [foodDetected], the route calls [res.json] with status
    200 and the very value that [JSON.parse] returned for the extracted
    text: the handler adds, removes and checks no member of it.  The reply
    may hold any other members, candidates and parts. *)
Theorem route_sends_the_models_object
    (env : Server.environment) (imageData : jsstring)
    (status : Z) (text analysisText matched : jsstring)
    (result candidate content part parsed : json)
    (candidates parts : list json) (b : bool) :
  imageData <> [] ->
  truthy (Server.isValidGeminiAPIKey (Server.GEMINI_API_KEY env)) = true ->
  ok status = true ->
  JSON.parse text = Return result ->
  field result "candidates" = Some (JArr (candidate :: candidates)) ->
  field candidate "content" = Some content ->
  field content "parts" = Some (JArr (part :: parts)) ->
  field part "text" = Some (JStr analysisText) ->
  match_braces analysisText = Some matched ->
  JSON.parse matched = Return parsed ->
  field parsed "foodDetected" = Some (JBool b) ->
  Server.sent
    (Server.analyze env
       (App.analyze_request imageData (Some (JStr (js "gemini"))))
       (Response status text))
  = Server.Reply 200 parsed.
Proof.
  intros Himg Hkey Hok Hp Hc Hcontent Hparts Htext Hm Hpm Hf.
  rewrite analyze_of_client_request by exact Himg.
  change (jsstring_eqb (js "gemini") (js "gemini")) with true. cbv iota.
  rewrite Hkey. cbn [Server.sent].
  rewrite (@gemini_reads_first_part imageData (Server.GEMINI_API_KEY env)
             _ _ _ _ _ _ _ _ Hok Hp Hc Hcontent Hparts).
  rewrite (member_of_field _ _ Htext). cbn [bind].
  destruct (parsed_match_is_object _ Hm Hpm) as [members ->].
  unfold Server.parse_analysis_text, Server.text_match. cbn [bind].
  rewrite Hm, Hpm. cbn [bind member].
  unfold field in Hf. rewrite Hf. now destruct b.
Qed.

Lemma route_sends_the_models_object_witness :
  Server.sent
    (Server.analyze
       {| Server.PERPLEXITY_API_KEY := None;
          Server.GEMINI_API_KEY := Some (js "AIzaSyTESTKEY1234567890");
          Server.DEFAULT_AI_PROVIDER := None |}
       (App.analyze_request (js "data:image/jpeg;base64,Zm9v") (Some (JStr (js "gemini"))))
       (Response 200
          (jsq "{'candidates':[{'content':{'parts':[{'text':'ok {\'foodDetected\':false,\'note\':1}'}],'role':'model'},'finishReason':'STOP'}],'usageMetadata':{'totalTokenCount':7}}")))
  = Server.Reply 200 (JObj [(js "foodDetected", JBool false); (js "note", JNum 1 0)]).
Proof.
  eapply (@route_sends_the_models_object
          {| Server.PERPLEXITY_API_KEY := None;
             Server.GEMINI_API_KEY := Some (js "AIzaSyTESTKEY1234567890");
             Server.DEFAULT_AI_PROVIDER := None |}
          (js "data:image/jpeg;base64,Zm9v") 200
          (jsq "{'candidates':[{'content':{'parts':[{'text':'ok {\'foodDetected\':false,\'note\':1}'}],'role':'model'},'finishReason':'STOP'}],'usageMetadata':{'totalTokenCount':7}}")
          (jsq "ok {'foodDetected':false,'note':1}")
          (jsq "{'foodDetected':false,'note':1}")).
  1: vm_compute; discriminate.
  all: try (vm_compute; reflexivity).
Defined.
